(** * node-jkutils: the Q3 out-of-band message parser and the JK protocol helpers

    A shallow embedding of
    - [lib/message-parser.js] (class [Q3MessageParser]),
    - [lib/jkutils.js] ([parseInfostring], [encodeServer], [decodeServer]),
    - the reply handlers of [lib/jkcomms.js] ([ctm_getservers], [cts_getinfo],
      [cts_getstatus]),
    followed by the properties established about them.

    Conventions of the embedding.
    - A [Buffer] is a [list byte]; offsets and lengths are [Z], since the
      parser's read offset is an unconstrained JS number (it can pass the end
      of the buffer).  Only integral numbers are modelled.
    - A JS string is a [string] (code units below 256).  Buffers are decoded
      with the ['ascii'] codec of Node, which clears the top bit of each byte.
    - A JS exception is the left injection of a sum; a plain object used as a
      dictionary is a [gmap string string] of its own properties.
    - [while] loops take fuel; [None] stands for "has not returned yet". *)

From Stdlib Require Import ZArith List Ascii String Bool Lia.
From Stdlib.Strings Require Import Byte.
From Stdlib Require Import DecimalString.
From stdpp Require Import base option list gmap strings.

Local Open Scope string_scope.
Local Open Scope list_scope.
Local Open Scope Z_scope.

(** ** Buffers *)

Module Buffer.

Abbreviation t := (list byte).

Definition length (b : t) : Z := Z.of_nat (List.length b).

(** Numeric value of a byte, [0 <= _ < 256]. *)
Definition u8 (x : byte) : Z := Z.of_N (Byte.to_N x).

(** The byte holding the low eight bits of [z]. *)
Definition of_u8 (z : Z) : byte :=
  match Byte.of_N (Z.to_N (z mod 256)) with
  | Some x => x
  | None => x00
  end.

(** Element access [buf[i]]; [None] is JS [undefined]. *)
Definition get (b : t) (i : Z) : option Z :=
  if i <? 0 then None else u8 <$> b !! Z.to_nat i.

(** [adjustOffset] of Node's [lib/buffer.js], on integral offsets. *)
Definition adjustOffset (offset len : Z) : Z :=
  if offset =? 0 then 0
  else if offset <? 0 then
    (if 0 <? offset + len then offset + len else 0)
  else if offset <? len then offset
  else len.

(** [buf.slice( start, end )]; [end] is [None] when omitted. *)
Definition slice (b : t) (start : Z) (end_ : option Z) : t :=
  let srcLength := length b in
  let start := adjustOffset start srcLength in
  let end_ := match end_ with
              | Some e => adjustOffset e srcLength
              | None => srcLength
              end in
  let newLength := if start <? end_ then end_ - start else 0 in
  firstn (Z.to_nat newLength) (skipn (Z.to_nat start) b).

(** The [size] bytes of [b] from index [start] on (fewer at the end of the
    buffer): what the statements below call "the bytes at an offset". *)
Definition bytes_at (b : t) (start size : Z) : t :=
  firstn (Z.to_nat size) (skipn (Z.to_nat start) b).

(** One byte decoded by the ['ascii'] codec: the top bit is cleared. *)
Definition ascii_char (x : byte) : ascii :=
  ascii_of_N (N.land (Byte.to_N x) 127).

Fixpoint ascii_text (b : t) : string :=
  match b with
  | [] => EmptyString
  | x :: b' => String (ascii_char x) (ascii_text b')
  end.

(** [buf.toString( 'ascii', start )]. *)
Definition toString_from (b : t) (start : Z) : string :=
  let len := length b in
  if start <=? 0 then ascii_text b
  else if len <=? start then EmptyString
  else ascii_text (skipn (Z.to_nat start) b).

(** [buf.toString( 'ascii' )]. *)
Definition toString (b : t) : string := ascii_text b.

(** [Buffer.from( str )] for a string of code units below 128. *)
Definition from_string (s : string) : t := list_byte_of_string s.

(** Reads that check their bounds: [None] is the [RangeError] Node throws
    when [offset] does not leave room for the value. *)
Definition readUInt8 (b : t) (offset : Z) : option Z :=
  if (offset <? 0) || (length b - 1 <? offset) then None
  else get b offset.

Definition readUInt16BE (b : t) (offset : Z) : option Z :=
  if (offset <? 0) || (length b - 2 <? offset) then None
  else
    match get b offset, get b (offset + 1) with
    | Some first, Some last => Some (first * 2 ^ 8 + last)
    | _, _ => None
    end.

Definition readUInt32LE (b : t) (offset : Z) : option Z :=
  if (offset <? 0) || (length b - 4 <? offset) then None
  else
    match get b offset, get b (offset + 1), get b (offset + 2), get b (offset + 3) with
    | Some first, Some b1, Some b2, Some last =>
        Some (first + b1 * 2 ^ 8 + b2 * 2 ^ 16 + last * 2 ^ 24)
    | _, _, _, _ => None
    end.

End Buffer.

(** ** Exceptions *)

Inductive exn : Type :=
| RangeError                         (* a Buffer access out of range *)
| MissingStartMarker (marker : Z)    (* thrown by the parser's constructor *).

(** ** [Q3MessageParser] *)

Module Q3MessageParser.

Record t : Type := mk { msg : Buffer.t; offset : Z }.

Definition set_offset (p : t) (o : Z) : t := mk (msg p) o.

(** [constructor( msg, validateHeader=true )] *)
Definition new (m : Buffer.t) (validateHeader : bool) : exn + t :=
  let this := mk m 0 in
  if validateHeader then
    match Buffer.readUInt32LE (msg this) (offset this) with
    | None => inl RangeError
    | Some marker =>
        let this := set_offset this (offset this + 4) in
        if negb (marker =? 4294967295) then inl (MissingStartMarker marker)
        else inr this
    end
  else inr this.

(** [str.indexOf( c )]: [None] is [-1]. *)
Fixpoint indexOf (c : ascii) (s : string) : option nat :=
  match s with
  | EmptyString => None
  | String d s' =>
      if Ascii.eqb d c then Some O else S <$> indexOf c s'
  end.

(** [str.slice( 0, n )] for [0 <= n]. *)
Fixpoint str_take (n : nat) (s : string) : string :=
  match n, s with
  | S n', String c s' => String c (str_take n' s')
  | _, _ => EmptyString
  end.

(** [str.slice( n )] for [0 <= n]. *)
Fixpoint str_drop (n : nat) (s : string) : string :=
  match n, s with
  | S n', String _ s' => str_drop n' s'
  | _, _ => s
  end.

Definition str_length (s : string) : Z := Z.of_nat (String.length s).

(** [readLine()] *)
Definition readLine (this : t) : string * t :=
  let str := Buffer.toString_from (msg this) (offset this) in
  match indexOf "010"%char str with
  | Some nextLineIdx =>
      (str_take nextLineIdx str,
       set_offset this (offset this + (Z.of_nat nextLineIdx + 1)))
  | None =>
      (str, set_offset this (offset this + str_length str))
  end.

(** [readChars( numBytes )] *)
Definition readChars (this : t) (numBytes : Z) : string * t :=
  let str := Buffer.toString
               (Buffer.slice (msg this) (offset this) (Some (offset this + numBytes))) in
  (str, set_offset this (offset this + numBytes)).

(** [skip( numBytes=1 )] *)
Definition skip (this : t) (numBytes : Z) : bool * t :=
  if Buffer.length (msg this) <=? offset this + numBytes then
    (false, set_offset this (Buffer.length (msg this)))
  else
    (true, set_offset this (offset this + numBytes)).

(** The text a parser has not read yet, as [readLine] decodes it. *)
Definition unread_text (this : t) : string :=
  Buffer.toString_from (msg this) (offset this).

(** [remainingBytes()] *)
Definition remainingBytes (this : t) : Z :=
  Buffer.length (msg this) - offset this.

(** The [while] loop of [splitWithStride]; [chunks] is kept in push order. *)
Fixpoint splitWithStride_loop (fuel : nat) (chunkSize stride numChunks : Z)
    (chunks : list Buffer.t) (this : t) : option (list Buffer.t * t) :=
  if (offset this + chunkSize <? Buffer.length (msg this))
     && ((numChunks =? 0) || (Z.of_nat (List.length chunks) <? numChunks))
  then
    match fuel with
    | O => None
    | S fuel' =>
        let chunks := chunks ++ [Buffer.slice (msg this) (offset this)
                                   (Some (offset this + chunkSize))] in
        let this := set_offset this (offset this + chunkSize) in
        let this := set_offset this (offset this + stride) in
        splitWithStride_loop fuel' chunkSize stride numChunks chunks this
    end
  else Some (chunks, this).

(** [splitWithStride( chunkSize=1, stride=1, numChunks=0 )] *)
Definition splitWithStride (fuel : nat) (this : t) (chunkSize stride numChunks : Z)
  : option (list Buffer.t * t) :=
  splitWithStride_loop fuel chunkSize stride numChunks [] this.

(** [count] chunks of [chunkSize] bytes, the first at [start], each
    followed by [stride] bytes that are passed over. *)
Fixpoint chunks_from (m : Buffer.t) (start chunkSize stride : Z) (count : nat)
  : list Buffer.t :=
  match count with
  | O => []
  | S count' =>
      Buffer.bytes_at m start chunkSize
      :: chunks_from m (start + chunkSize + stride) chunkSize stride count'
  end.

(** The characters [parseStringArgs] splits on: the class [[ \0]] when
    [allowCRLF] is set, the class [[ \n\r\0]] otherwise. *)
Definition is_arg_delimiter (allowCRLF : bool) (c : ascii) : bool :=
  if allowCRLF then Ascii.eqb c " " || Ascii.eqb c "000"
  else Ascii.eqb c " " || Ascii.eqb c "010" || Ascii.eqb c "013" || Ascii.eqb c "000".

(** [str.split( /[...]/ )] for a character class [delim]: never empty. *)
Fixpoint split_where (delim : ascii -> bool) (s : string) : list string :=
  match s with
  | EmptyString => [EmptyString]
  | String c s' =>
      if delim c then EmptyString :: split_where delim s'
      else match split_where delim s' with
           | arg :: args => String c arg :: args
           | [] => [String c EmptyString]
           end
  end.

(** [parseStringArgs( allowCRLF=false )] *)
Definition parseStringArgs (this : t) (allowCRLF : bool) : list string * t :=
  let args := split_where (is_arg_delimiter allowCRLF)
                (Buffer.toString_from (msg this) (offset this)) in
  (args,
   set_offset this
     (offset this
      + (fold_left (fun s arg => s + str_length arg + 1) args 0 - 1))).

(** One call of a read primitive with non-negative arguments. *)
Inductive step : t -> t -> Prop :=
| step_readLine p :
    step p (snd (readLine p))
| step_readChars p n :
    0 <= n -> step p (snd (readChars p n))
| step_skip p n :
    0 <= n -> step p (snd (skip p n))
| step_splitWithStride p fuel chunkSize stride numChunks chunks p' :
    0 <= chunkSize -> 0 <= stride -> 0 <= numChunks ->
    splitWithStride fuel p chunkSize stride numChunks = Some (chunks, p') ->
    step p p'.

(** The parser states a caller can see: a constructed parser, then any
    number of reads. *)
Inductive reachable : t -> Prop :=
| reachable_new m validateHeader p :
    new m validateHeader = inr p -> reachable p
| reachable_step p p' :
    reachable p -> step p p' -> reachable p'.

End Q3MessageParser.

(** ** JS numbers and values, as far as the helpers use them *)

Module JS.

(** An integral JS number; [None] is [NaN] (or [undefined] where a number is
    expected: both convert to [0] under [ToInt32]). *)
Definition num := option Z.

Definition wrap32 (z : Z) : Z := (z + 2 ^ 31) mod 2 ^ 32 - 2 ^ 31.

Definition ToInt32 (v : num) : Z :=
  match v with
  | Some z => wrap32 z
  | None => 0
  end.

(** [a << n], [a >> n], [a | b], [a & b] *)
Definition shl (a : num) (n : Z) : num :=
  Some (wrap32 (Z.shiftl (ToInt32 a) (n mod 32))).
Definition sar (a : num) (n : Z) : num :=
  Some (Z.shiftr (ToInt32 a) (n mod 32)).
Definition bor (a b : num) : num := Some (Z.lor (ToInt32 a) (ToInt32 b)).
Definition band (a b : num) : num := Some (Z.land (ToInt32 a) (ToInt32 b)).

(** The line feed and the double quote as one-character strings. *)
Definition LF : string := String "010" EmptyString.
Definition QUOTE : string := String "034" EmptyString.

Definition is_digit (c : ascii) : bool :=
  let n := N_of_ascii c in (48 <=? n)%N && (n <=? 57)%N.

Fixpoint all_digits (s : string) : bool :=
  match s with
  | EmptyString => true
  | String c s' => is_digit c && all_digits s'
  end.

Fixpoint decimal_value (acc : Z) (s : string) : Z :=
  match s with
  | EmptyString => acc
  | String c s' => decimal_value (10 * acc + (Z.of_N (N_of_ascii c) - 48)) s'
  end.

(** Unary [+] on a string, on the fragment the address codec meets: a run
    of decimal digits converts to its value and the empty string to [0].
    Strings with a sign, blanks, a radix prefix or an exponent are outside
    the fragment (they are given [NaN] here), and so are digit runs worth
    [2^53] or more, which JS rounds.  [plain_decimal] recognises strings of
    the fragment: what is stated of an arbitrary string through [toNumber]
    is stated of those. *)
Definition toNumber (s : string) : num :=
  if all_digits s then Some (decimal_value 0 s) else None.

(** A run of at most fifteen decimal digits, possibly empty: its value is
    below [10^15], hence a JS number holds it exactly. *)
Definition plain_decimal (s : string) : bool :=
  all_digits s && (String.length s <=? 15)%nat.

(** [String( n )] for a natural number. *)
Definition decimal (n : N) : string := NilZero.string_of_uint (N.to_uint n).

(** [toLowerCase] on one code unit below 256: A-Z and the capital letters
    of Latin-1 (U+00C0..U+00DE but the multiplication sign) move up by 32. *)
Definition lower_char (c : ascii) : ascii :=
  let n := N_of_ascii c in
  if ((65 <=? n)%N && (n <=? 90)%N)
     || ((192 <=? n)%N && (n <=? 222)%N && negb (n =? 215)%N)
  then ascii_of_N (n + 32)
  else c.

Fixpoint toLowerCase (s : string) : string :=
  match s with
  | EmptyString => EmptyString
  | String c s' => String (lower_char c) (toLowerCase s')
  end.

(** [str.split( sep )] for a one-character separator: never empty. *)
Fixpoint split (sep : ascii) (s : string) : list string :=
  match s with
  | EmptyString => [EmptyString]
  | String c s' =>
      if Ascii.eqb c sep then EmptyString :: split sep s'
      else match split sep s' with
           | tok :: toks => String c tok :: toks
           | [] => [String c EmptyString]
           end
  end.

(** [arr.join( sep )] *)
Fixpoint join (sep : string) (l : list string) : string :=
  match l with
  | [] => EmptyString
  | [x] => x
  | x :: l' => (x ++ sep ++ join sep l')%string
  end.

(** A plain object literal used as a dictionary: its own properties. *)
Abbreviation obj := (gmap string string).

(** [o[k] = v] on an object created by [{}]: an assignment to the key
    [__proto__] reaches the setter inherited from [Object.prototype], which
    ignores a string, so no own property appears. *)
Definition obj_set (o : obj) (k v : string) : obj :=
  if String.eqb k "__proto__" then o else <[k:=v]> o.

(** [o.k] for a key [Object.prototype] does not define; [None] is
    [undefined]. *)
Definition obj_get (o : obj) (k : string) : option string := o !! k.

(** The values [Array.prototype.indexOf] compares below. *)
Inductive value : Type :=
| VStr (s : string)
| VNum (z : Z).

(** [a === b] *)
Definition strict_eq (a b : value) : bool :=
  match a, b with
  | VStr s, VStr s' => String.eqb s s'
  | VNum z, VNum z' => z =? z'
  | _, _ => false
  end.

(** [arr.indexOf( v )] from index [i] on; [-1] when absent. *)
Fixpoint indexOf_from (i : Z) (arr : list value) (v : value) : Z :=
  match arr with
  | [] => -1
  | x :: arr' => if strict_eq x v then i else indexOf_from (i + 1) arr' v
  end.

Definition indexOf (arr : list value) (v : value) : Z := indexOf_from 0 arr v.

End JS.

(** ** Writes into a Buffer *)

Module BufferWrite.

(** [buf[i] = z] for [i] in range. *)
Definition put (b : Buffer.t) (i : Z) (z : Z) : Buffer.t :=
  <[Z.to_nat i := Buffer.of_u8 z]> b.

(** [buf.writeUInt32BE( value, offset )]; [None] is the [RangeError] for a
    value outside [0, 2^32 - 1] or an offset without room. *)
Definition writeUInt32BE (b : Buffer.t) (value offset : Z) : option Buffer.t :=
  if (offset <? 0) || (Buffer.length b - 4 <? offset) then None
  else if (value <? 0) || (4294967295 <? value) then None
  else
    let b := put b offset (Z.shiftr value 24) in
    let b := put b (offset + 1) (Z.shiftr value 16) in
    let b := put b (offset + 2) (Z.shiftr value 8) in
    Some (put b (offset + 3) value).

(** [buf.writeUInt16BE( value, offset )] *)
Definition writeUInt16BE (b : Buffer.t) (value offset : Z) : option Buffer.t :=
  if (offset <? 0) || (Buffer.length b - 2 <? offset) then None
  else if (value <? 0) || (65535 <? value) then None
  else
    let b := put b offset (Z.shiftr value 8) in
    Some (put b (offset + 1) value).

End BufferWrite.

(** ** [lib/jkutils.js] *)

Module JKUtils.

Definition oobPrefix : Buffer.t := [xff; xff; xff; xff]%byte.

(** The [for] loop of [parseInfostring]; it runs at most
    [toks.length / 2] times, so [toks.length] rounds of fuel are enough. *)
Fixpoint parseInfostring_loop (fuel : nat) (toks : list string) (i : Z)
    (pairs : JS.obj) : JS.obj :=
  match fuel with
  | O => pairs
  | S fuel' =>
      if i <? Z.of_nat (List.length toks) - 1 then
        let pairs :=
          JS.obj_set pairs
            (JS.toLowerCase (nth (Z.to_nat i) toks EmptyString))
            (nth (Z.to_nat (i + 1)) toks EmptyString) in
        parseInfostring_loop fuel' toks (i + 2) pairs
      else pairs
  end.

Definition parseInfostring (info : string) : JS.obj :=
  let info :=
    match info with
    | String "\" rest => rest
    | _ => info
    end in
  let toks := JS.split "\" info in
  parseInfostring_loop (List.length toks) toks 0 ∅.

(** The decoding as the specification words it, to compare with
    [parseInfostring]: strip one optional leading separator, split on the
    separator, pair consecutive tokens (a trailing unmatched token is
    dropped), lower-case the keys.  It is written with the Standard
    Library's strings and a finite map, and with none of the helpers
    [parseInfostring] is made of. *)
Definition strip_leading_separator (text : string) : string :=
  match text with
  | String "\" rest => rest
  | _ => text
  end.

Fixpoint pair_tokens (toks : list string) : list (string * string) :=
  match toks with
  | key :: value :: toks' => (key, value) :: pair_tokens toks'
  | _ => []
  end.

(** [toks] is [text] split on [sep]: no token holds the separator and the
    tokens, joined by it, give the text back.  A text has one such list. *)
Definition is_split (sep : ascii) (text : string) (toks : list string) : Prop :=
  toks <> []
  /\ Forall (fun tok => ~ In sep (list_ascii_of_string tok)) toks
  /\ String.concat (String sep EmptyString) toks = text.

(** Lower case of a code unit below 256: the letters A-Z, and the capital
    letters of Latin-1 (192 to 222 but the multiplication sign, 215), are
    32 below their small letters. *)
Definition lower_case_code (n : N) : N :=
  if ((65 <=? n)%N && (n <=? 90)%N)
     || ((192 <=? n)%N && (n <=? 222)%N && negb (n =? 215)%N)
  then (n + 32)%N
  else n.

Definition lower_case (s : string) : string :=
  string_of_list_ascii
    (map (fun c => ascii_of_N (lower_case_code (N_of_ascii c)))
         (list_ascii_of_string s)).

(** The mapping of a list of pairs: each key, lower-cased, is bound to its
    value; of two pairs with the same key the later one stays. *)
Definition mapping_of_pairs (pairs : list (string * string)) : gmap string string :=
  fold_left (fun mapping kv => <[lower_case (fst kv) := snd kv]> mapping) pairs ∅.

(** [mapping] is the decoding of [text]. *)
Definition decodeInfostring (text : string) (mapping : gmap string string) : Prop :=
  exists toks,
    is_split "\" (strip_leading_separator text) toks
    /\ mapping = mapping_of_pairs (pair_tokens toks).

(** The pairs whose key is not [__proto__] in any letter case. *)
Definition not_proto (kv : string * string) : bool :=
  negb (String.eqb (lower_case (fst kv)) "__proto__").

(** One round of the loop of [parseInfostring], on a pair of tokens. *)
Definition store_pair (pairs : JS.obj) (kv : string * string) : JS.obj :=
  JS.obj_set pairs (JS.toLowerCase (fst kv)) (snd kv).

(** [stripColours]: [s.replace( /\^[0-9]/g, '' )].  The scan goes from left
    to right and resumes after each match, so what a removal brings together
    is not looked at again. *)
Fixpoint stripColours (s : string) : string :=
  match s with
  | EmptyString => EmptyString
  | String c rest =>
      match rest with
      | String d rest' =>
          if Ascii.eqb c "^" && JS.is_digit d then stripColours rest'
          else String c (stripColours rest)
      | EmptyString => String c EmptyString
      end
  end.

(** A text in which every segment is preceded by a colour code. *)
Fixpoint coloured (segments : list (ascii * string)) : string :=
  match segments with
  | [] => EmptyString
  | (digit, text) :: segments' =>
      String "^" (String digit (text ++ coloured segments'))%string
  end.

Fixpoint plain (segments : list (ascii * string)) : string :=
  match segments with
  | [] => EmptyString
  | (_, text) :: segments' => (text ++ plain segments')%string
  end.

(** The tokens of a list of pairs, and the infostring that carries them in
    the form [k1\v1\k2\v2] of the docstring. *)
Fixpoint tokens_of (pairs : list (string * string)) : list string :=
  match pairs with
  | [] => []
  | (key, value) :: pairs' => key :: value :: tokens_of pairs'
  end.

Definition infostring_of (pairs : list (string * string)) : string :=
  JS.join (String "\" EmptyString) (tokens_of pairs).

(** The address strings on which [encodeServer] below is the code's: every
    part between dots is within the fragment of [JS.toNumber]. *)
Definition decimal_parts (ip : string) : bool :=
  forallb JS.plain_decimal (JS.split "." ip).

(** The dotted quad of four octets, each in decimal without leading zeros. *)
Definition dotted (a b c d : byte) : string :=
  JS.join "." (map (fun x => JS.decimal (Byte.to_N x)) [a; b; c; d]).

(** [encodeServer( ip, port )]; the left injection is a thrown error.  The
    octets go through [JS.toNumber], so on an address outside
    [decimal_parts] this is the code up to the fragment of [JS.toNumber]. *)
Definition encodeServer (ip : string) (port : Z) : exn + Buffer.t :=
  let buffer := repeat x00%byte 6 in
  let offset := 0 in
  let octets := map JS.toNumber (JS.split "." ip) in
  let octet (i : nat) : JS.num := mjoin (nth_error octets i) in
  let word :=
    JS.bor (JS.bor (JS.bor (JS.shl (octet 0%nat) 24) (JS.shl (octet 1%nat) 16))
                   (JS.shl (octet 2%nat) 8))
           (octet 3%nat) in
  match BufferWrite.writeUInt32BE buffer (JS.ToInt32 word) offset with
  | None => inl RangeError
  | Some buffer =>
      let offset := offset + 4 in
      let half := JS.bor (JS.sar (Some port) 8) (JS.band (Some port) (Some 255)) in
      match BufferWrite.writeUInt16BE buffer (JS.ToInt32 half) offset with
      | None => inl RangeError
      | Some buffer => inr buffer
      end
  end.

Record server : Type := mkServer { ip : string; port : Z }.

(** [decodeServer( buffer )] *)
Definition decodeServer (buffer : Buffer.t) : exn + server :=
  let ip := JS.join "."
              (map (fun x => JS.decimal (Byte.to_N x)) (Buffer.slice buffer 0 (Some 4))) in
  match Buffer.readUInt16BE buffer 4 with
  | None => inl RangeError
  | Some port => inr (mkServer ip port)
  end.

End JKUtils.

(** ** [lib/jkcomms.js]: what each operation does with a reply

    Each operation hands [JKSocket.send] a callback [(err, res) => ...]; the
    definitions below are those callbacks.  [ip], [port] and [challenge] are
    the values the closure captured ([opts.ip] after resolution, [opts.port],
    and the challenge after its default).  The [debug] lines leave no trace
    in the result and are not modelled. *)

Module JKComms.

Import Q3MessageParser.

Record address : Type := mkAddress { ip : string; port : Z }.

(** [data] of [JKSocket.recvMsg] *)
Record reply : Type := mkReply { source : address; response : Buffer.t }.

(** The first argument of [callback] when it is not [null]. *)
Inductive failure : Type :=
| SendFailed (err : string)
| ResponseCameFrom (got expected : address)
| ExpectedCommand (expected got : string)
| ChallengeMismatch (sent : string) (got : option string).

(** How a reply callback ends: [callback( null, a )], [callback( err )], or
    an exception that leaves it before any [callback]. *)
Inductive outcome (A : Type) : Type :=
| Resolved (a : A)
| Failed (f : failure)
| Threw (e : exn).
Arguments Resolved {A} a.
Arguments Failed {A} f.
Arguments Threw {A} e.

(** [opts.challenge || 'jkutils-query'] *)
Definition challenge_of (c : option string) : string :=
  match c with
  | Some (String a s) => String a s
  | _ => "jkutils-query"
  end.

Definition source_differs (res : reply) (ip : string) (port : Z) : bool :=
  negb (String.eqb (JKComms.ip (source res)) ip)
  || negb (JKComms.port (source res) =? port).

(** *** getservers *)

(** [do { parser.skip(); } while ( [ '\0', '\n' ].indexOf(
    parser.msg.readUInt8( parser.offset ) ) !== -1 );] *)
Fixpoint skip_head (fuel : nat) (parser : Q3MessageParser.t)
  : option (exn + Q3MessageParser.t) :=
  match fuel with
  | O => None
  | S fuel' =>
      let parser := snd (skip parser 1) in
      match Buffer.readUInt8 (msg parser) (offset parser) with
      | None => Some (inl RangeError)
      | Some x =>
          if negb (JS.indexOf [JS.VStr (String "000" EmptyString);
                               JS.VStr (String "010" EmptyString)] (JS.VNum x) =? -1)
          then skip_head fuel' parser
          else Some (inr parser)
      end
  end.

(** [for ( let chunk of chunks ) servers.push( decodeServer( chunk ) )] *)
Fixpoint decode_chunks (chunks : list Buffer.t) (servers : list JKUtils.server)
  : exn + list JKUtils.server :=
  match chunks with
  | [] => inr servers
  | chunk :: chunks' =>
      match JKUtils.decodeServer chunk with
      | inl e => inl e
      | inr s => decode_chunks chunks' (servers ++ [s])
      end
  end.

Definition ctm_getservers_reply (fuel : nat) (strictMode : bool)
    (ip : string) (port : Z) (err : option string) (res : reply)
  : option (outcome (list JKUtils.server)) :=
  match err with
  | Some e => Some (Failed (SendFailed e))
  | None =>
  if source_differs res ip port && strictMode then
    Some (Failed (ResponseCameFrom (source res) (mkAddress ip port)))
  else
  match Q3MessageParser.new (response res) true with
  | inl e => Some (Threw e)
  | inr parser =>
  let expectedCommand := "getserversResponse" in
  let '(command, parser) := readChars parser (str_length expectedCommand) in
  if negb (String.eqb command expectedCommand) && strictMode then
    Some (Failed (ExpectedCommand expectedCommand command))
  else
  match skip_head fuel parser with
  | None => None
  | Some (inl e) => Some (Threw e)
  | Some (inr parser) =>
  match splitWithStride fuel parser 6 1 0 with
  | None => None
  | Some (chunks, parser) =>
  match decode_chunks chunks [] with
  | inl e => Some (Threw e)
  | inr servers =>
  let '(sentinel, parser) := readLine parser in
  Some (Resolved servers)
  end end end end end.

(** *** getinfo *)

Record info_result : Type :=
  mkInfo { info_source : address; info : JS.obj }.

Definition cts_getinfo_reply (strictMode : bool)
    (ip : string) (port : Z) (challenge : string)
    (err : option string) (res : reply) : outcome info_result :=
  match err with
  | Some e => Failed (SendFailed e)
  | None =>
  if source_differs res ip port && strictMode then
    Failed (ResponseCameFrom (source res) (mkAddress ip port))
  else
  match Q3MessageParser.new (response res) true with
  | inl e => Threw e
  | inr parser =>
  let '(command, parser) := readLine parser in
  if negb (String.eqb command "infoResponse") && strictMode then
    Failed (ExpectedCommand "infoResponse" command)
  else
  let '(infoString, parser) := readLine parser in
  let info := JKUtils.parseInfostring infoString in
  if negb (bool_decide (JS.obj_get info "challenge" = Some challenge)) && strictMode then
    Failed (ChallengeMismatch challenge (JS.obj_get info "challenge"))
  else
    Resolved (mkInfo (source res) info)
  end end.

(** *** getstatus *)

(** [matches.groups]: the three named groups, as matched text. *)
Record client : Type := mkClient { score : string; ping : string; name : string }.

(** The longest run of [\d] at the head of [s], and what follows it. *)
Fixpoint span_digits (s : string) : string * string :=
  match s with
  | String c s' =>
      if JS.is_digit c then
        let '(ds, rest) := span_digits s' in (String c ds, rest)
      else (EmptyString, s)
  | EmptyString => (EmptyString, EmptyString)
  end.

(** [.] matches any code unit but a line terminator. *)
Definition is_dot (c : ascii) : bool :=
  negb (Ascii.eqb c "010" || Ascii.eqb c "013").

(** [s] seen as [body ++ [last]]. *)
Fixpoint unsnoc (s : string) : option (string * ascii) :=
  match s with
  | EmptyString => None
  | String c EmptyString => Some (EmptyString, c)
  | String c s' =>
      match unsnoc s' with
      | Some (body, last) => Some (String c body, last)
      | None => None
      end
  end.

Fixpoint all_dot (s : string) : bool :=
  match s with
  | EmptyString => true
  | String c s' => is_dot c && all_dot s'
  end.

(** The literal character [c] at the head of [s]: what follows it. *)
Definition expect (c : ascii) (s : string) : option string :=
  match s with
  | String d s' => if Ascii.eqb d c then Some s' else None
  | EmptyString => None
  end.

Definition nonempty (s : string) : bool :=
  match s with
  | EmptyString => false
  | String _ _ => true
  end.

(** [/^(?<score>\d+) (?<ping>\d+) "(?<name>.+)"$/.exec( line )], read from
    left to right.  A digit run must be followed by a blank, so each [\d+]
    can only take the whole run; [name] is what lies between the quote after
    the second blank and the quote that ends the line. *)
Definition exec_client (line : string) : option client :=
  let '(score, rest) := span_digits line in
  if negb (nonempty score) then None else
  match expect " " rest with
  | None => None
  | Some rest =>
  let '(ping, rest) := span_digits rest in
  if negb (nonempty ping) then None else
  match expect " " rest with
  | None => None
  | Some rest =>
  match expect "034" rest with
  | None => None
  | Some rest =>
  match unsnoc rest with
  | None => None
  | Some (name, last) =>
      if Ascii.eqb last "034" && nonempty name && all_dot name
      then Some (mkClient score ping name)
      else None
  end end end end.

(** The pattern itself: [line] is a run of digits, a blank, a run of
    digits, a blank, and a quoted run of characters other than line
    terminators, none of the three runs being empty. *)
Definition client_shape (line : string) (c : client) : Prop :=
  line = (score c ++ " " ++ ping c ++ " " ++ JS.QUOTE ++ name c ++ JS.QUOTE)%string
  /\ nonempty (score c) = true /\ JS.all_digits (score c) = true
  /\ nonempty (ping c) = true /\ JS.all_digits (ping c) = true
  /\ nonempty (name c) = true /\ all_dot (name c) = true.

(** [while ( (line = parser.readLine()) ) { ... }]: an empty line is falsy. *)
Fixpoint clients_loop (fuel : nat) (parser : Q3MessageParser.t)
    (clients : list client) : option (list client * Q3MessageParser.t) :=
  let '(line, parser) := readLine parser in
  match line with
  | EmptyString => Some (clients, parser)
  | String _ _ =>
      match fuel with
      | O => None
      | S fuel' =>
          let clients :=
            match exec_client line with
            | Some groups => clients ++ [groups]
            | None => clients
            end in
          clients_loop fuel' parser clients
      end
  end.



Record status_result : Type :=
  mkStatus { status_source : address; status : JS.obj; clients : list client }.

Definition cts_getstatus_reply (fuel : nat) (strictMode : bool)
    (ip : string) (port : Z) (challenge : string)
    (err : option string) (res : reply) : option (outcome status_result) :=
  match err with
  | Some e => Some (Failed (SendFailed e))
  | None =>
  if source_differs res ip port && strictMode then
    Some (Failed (ResponseCameFrom (source res) (mkAddress ip port)))
  else
  match Q3MessageParser.new (response res) true with
  | inl e => Some (Threw e)
  | inr parser =>
  let '(command, parser) := readLine parser in
  if negb (String.eqb command "statusResponse") && strictMode then
    Some (Failed (ExpectedCommand "statusResponse" command))
  else
  let '(infoString, parser) := readLine parser in
  let status := JKUtils.parseInfostring infoString in
  if negb (bool_decide (JS.obj_get status "challenge" = Some challenge)) && strictMode then
    Some (Failed (ChallengeMismatch challenge (JS.obj_get status "challenge")))
  else
  match clients_loop fuel parser [] with
  | None => None
  | Some (clients, parser) =>
      Some (Resolved (mkStatus (source res) status clients))
  end end end.

(** A [getserversResponse] datagram as the comments of [ctm_getservers]
    describe it: the marker, the command, one byte of padding, the records
    each followed by a backslash, and a trailer (the sentinel and any
    padding after it). *)
Definition records_body (records : list Buffer.t) : Buffer.t :=
  concat (map (fun record => record ++ [x5c]%byte) records).

Definition getservers_datagram (pad : byte) (records : list Buffer.t)
    (trailer : Buffer.t) : Buffer.t :=
  JKUtils.oobPrefix
  ++ (Buffer.from_string "getserversResponse"
      ++ ([pad] ++ (records_body records ++ trailer))).

End JKComms.

(** ** The first [jkutils.js]: the address codec before the rewrite *)

Module Legacy.

(** [buf[i] = v] for [i] in range: the value is converted to a number, [NaN]
    and [undefined] to [0], and stored modulo 256. *)
Definition put_value (b : Buffer.t) (i : Z) (v : JS.num) : Buffer.t :=
  BufferWrite.put b i (default 0 v).

(** [jkutils.encodeServer( ip, port )]: the octets are stored as the strings
    [split] returns. *)
Definition encodeServer (ip : string) (port : Z) : Buffer.t :=
  let buffer := repeat x00%byte 6 in
  let octets := JS.split "." ip in
  let octet (i : nat) : JS.num := nth_error octets i ≫= JS.toNumber in
  let buffer := put_value buffer 0 (octet 0%nat) in
  let buffer := put_value buffer 1 (octet 1%nat) in
  let buffer := put_value buffer 2 (octet 2%nat) in
  let buffer := put_value buffer 3 (octet 3%nat) in
  let buffer := put_value buffer 4 (JS.sar (Some port) 8) in
  let buffer := put_value buffer 5 (JS.band (Some port) (Some 255)) in
  buffer.

(** [jkutils.decodeServer( buffer )]: it reads the port with element
    accesses, which answer [undefined] out of range and do not throw. *)
Definition decodeServer (buffer : Buffer.t) : JKUtils.server :=
  let octets := JS.join "."
                  (map (fun x => JS.decimal (Byte.to_N x))
                       (Buffer.slice buffer 0 (Some 4))) in
  let portBuf := Buffer.slice buffer 4 (Some 6) in
  let port : JS.num := Buffer.get portBuf 1 in
  let port := JS.bor port (JS.shl (Buffer.get portBuf 0) 8) in
  JKUtils.mkServer octets (JS.ToInt32 port).

End Legacy.

(** * Properties *)

(** ** Buffer lemmas *)

Section BufferFacts.

Implicit Types (b : Buffer.t) (o e n : Z).

Lemma length_nonneg b : 0 <= Buffer.length b.
Proof. unfold Buffer.length. lia. Qed.

Lemma adjustOffset_nonneg o len :
  0 <= o -> 0 <= len -> Buffer.adjustOffset o len = Z.min o len.
Proof.
  intros Ho Hl. unfold Buffer.adjustOffset.
  destruct (Z.eqb_spec o 0) as [->|Hne]; [lia|].
  destruct (Z.ltb_spec o 0); [lia|].
  destruct (Z.ltb_spec o len); lia.
Qed.

(** A slice between two non-negative bounds is the sub-list between them,
    cut at the end of the buffer. *)
Lemma slice_in_range b o e :
  0 <= o -> o <= e ->
  Buffer.slice b o (Some e) = take (Z.to_nat (e - o)) (drop (Z.to_nat o) b).
Proof.
  intros Ho He. unfold Buffer.slice.
  pose proof (length_nonneg b) as Hl.
  rewrite !adjustOffset_nonneg by lia.
  unfold Buffer.length in *.
  remember (Z.of_nat (length b)) as L eqn:HL.
  destruct (Z.le_gt_cases L o) as [Hout|Hin].
  - (* the slice starts at or after the end *)
    rewrite (Z.min_r o L), (Z.min_r e L) by lia.
    rewrite Z.ltb_irrefl. simpl.
    rewrite !drop_ge by lia. by rewrite !take_nil.
  - rewrite (Z.min_l o L) by lia.
    destruct (Z.le_gt_cases e L) as [Hein|Heout].
    + rewrite (Z.min_l e L) by lia.
      destruct (Z.ltb_spec o e); [reflexivity|].
      replace (Z.to_nat (e - o)) with 0%nat by lia. reflexivity.
    + rewrite (Z.min_r e L) by lia.
      destruct (Z.ltb_spec o L); [|lia].
      rewrite !take_ge; [reflexivity| |]; rewrite length_drop; lia.
Qed.

Lemma ascii_text_length b :
  String.length (Buffer.ascii_text b) = length b.
Proof. induction b as [|x b IH]; simpl; [reflexivity|]. by rewrite IH. Qed.

Lemma ascii_text_app b b' :
  Buffer.ascii_text (b ++ b') = (Buffer.ascii_text b ++ Buffer.ascii_text b')%string.
Proof. induction b as [|x b IH]; simpl; [reflexivity|]. by rewrite IH. Qed.

(** Decoding from a non-negative offset decodes the bytes from there on. *)
Lemma toString_from_drop b o :
  0 <= o ->
  Buffer.toString_from b o = Buffer.ascii_text (drop (Z.to_nat o) b).
Proof.
  intros Ho. unfold Buffer.toString_from, Buffer.length.
  destruct (Z.leb_spec o 0).
  - replace (Z.to_nat o) with 0%nat by lia. reflexivity.
  - destruct (Z.leb_spec (Z.of_nat (length b)) o); [|reflexivity].
    rewrite drop_ge by lia. reflexivity.
Qed.

Lemma get_app_l b b' i :
  i < Buffer.length b -> Buffer.get (b ++ b') i = Buffer.get b i.
Proof.
  intros Hi. unfold Buffer.get, Buffer.length in *.
  destruct (Z.ltb_spec i 0); [reflexivity|].
  rewrite lookup_app_l by lia. reflexivity.
Qed.

(** The four marker bytes alone decide what [readUInt32LE] reads at 0. *)
Lemma readUInt32LE_header hdr rest :
  length hdr = 4%nat ->
  Buffer.readUInt32LE (hdr ++ rest) 0 = Buffer.readUInt32LE hdr 0.
Proof.
  intros Hlen. unfold Buffer.readUInt32LE.
  assert (Buffer.length hdr = 4) as Hl by (unfold Buffer.length; lia).
  assert (Buffer.length (hdr ++ rest) = 4 + Buffer.length rest) as Hl'
    by (unfold Buffer.length; rewrite length_app; lia).
  pose proof (length_nonneg rest).
  rewrite Hl, Hl'. simpl (0 <? 0).
  destruct (Z.ltb_spec (4 + Buffer.length rest - 4) 0); [lia|].
  simpl. rewrite !get_app_l by lia. reflexivity.
Qed.

End BufferFacts.

(** ** The parser *)

Section ParserFacts.

Import Q3MessageParser.

Implicit Types (p : Q3MessageParser.t) (n : Z).

(** C7.  A payload whose first four bytes, read as a little-endian 32-bit
    integer, are not 0xFFFFFFFF makes the constructor (with header
    validation) throw its missing-marker error; the bytes after the marker
    play no part: the outcome is the same whatever follows the marker, and
    no parser over the payload comes into being. *)
Theorem new_rejects_bad_marker (hdr rest : Buffer.t) (marker : Z) :
  length hdr = 4%nat ->
  Buffer.readUInt32LE hdr 0 = Some marker ->
  marker <> 4294967295 ->
  new (hdr ++ rest) true = inl (MissingStartMarker marker).
Proof.
  intros Hlen Hrd Hne. unfold new. simpl msg. simpl offset.
  rewrite readUInt32LE_header, Hrd by exact Hlen.
  destruct (Z.eqb_spec marker 4294967295); [contradiction|reflexivity].
Qed.

Lemma new_rejects_bad_marker_witness :
  new ([x00; x01; xff; xff] ++ Buffer.from_string "statusResponse")%byte true
  = inl (MissingStartMarker 4294902016).
Proof.
  apply (new_rejects_bad_marker [x00; x01; xff; xff]%byte
           (Buffer.from_string "statusResponse") 4294902016).
  - reflexivity.
  - reflexivity.
  - lia.
Defined.

(** C8 as stated fails at the boundary: with one byte left, [skip( 1 )]
    reaches the end of the buffer without passing it, yet answers [false]
    and so differs from "advance and return true". *)
Lemma skip_to_exact_end_is_false :
  let p := mk (JKUtils.oobPrefix ++ [x41]%byte) 4 in
  offset p + 1 = Buffer.length (msg p)
  /\ skip p 1 = (false, set_offset p 5)
  /\ skip p 1 <> (true, set_offset p (offset p + 1)).
Proof. cbv zeta. split; [reflexivity|]. split; [reflexivity|discriminate]. Qed.

(** C8, amended.  [skip( n )] advances the offset by [n] and returns
    [true] when [offset + n] stays strictly below the buffer length;
    otherwise, also when [offset + n] is exactly the buffer length, it sets
    the offset to the buffer length and returns [false]. *)
Theorem skip_advances_or_clamps p n :
  (offset p + n < Buffer.length (msg p) ->
     skip p n = (true, set_offset p (offset p + n)))
  /\ (Buffer.length (msg p) <= offset p + n ->
     skip p n = (false, set_offset p (Buffer.length (msg p)))).
Proof.
  unfold skip.
  destruct (Z.leb_spec (Buffer.length (msg p)) (offset p + n)); split; intros; try lia; reflexivity.
Qed.

Lemma skip_advances_or_clamps_witness :
  skip (mk (JKUtils.oobPrefix ++ [x41; x42; x43]%byte) 4) 2
    = (true, mk (JKUtils.oobPrefix ++ [x41; x42; x43]%byte) 6)
  /\ skip (mk (JKUtils.oobPrefix ++ [x41; x42; x43]%byte) 4) 3
    = (false, mk (JKUtils.oobPrefix ++ [x41; x42; x43]%byte) 7).
Proof.
  split.
  - apply (proj1 (skip_advances_or_clamps
                    (mk (JKUtils.oobPrefix ++ [x41; x42; x43]%byte) 4) 2)).
    vm_compute. reflexivity.
  - apply (proj2 (skip_advances_or_clamps
                    (mk (JKUtils.oobPrefix ++ [x41; x42; x43]%byte) 4) 3)).
    vm_compute. discriminate.
Defined.

(** C4 as stated fails: with three bytes left, [readChars( 18 )] raises
    nothing; it returns the three bytes that remain and moves the offset
    past the end of the buffer. *)
Lemma readChars_past_end_returns :
  let p := mk (JKUtils.oobPrefix ++ Buffer.from_string "abc") 4 in
  remainingBytes p < 18
  /\ readChars p 18 = ("abc", set_offset p 22).
Proof. cbv zeta. split; reflexivity. Qed.

Lemma readChars_eq p n :
  0 <= offset p -> 0 <= n ->
  readChars p n
  = (Buffer.ascii_text (Buffer.bytes_at (msg p) (offset p) n),
     set_offset p (offset p + n)).
Proof.
  intros Ho Hn. unfold readChars, Buffer.toString, Buffer.bytes_at.
  rewrite slice_in_range by lia.
  replace (offset p + n - offset p) with n by lia. reflexivity.
Qed.

(** C4, amended.  Within bounds [readChars( n )] returns exactly the [n]
    bytes at the current offset as ASCII text and advances the offset by
    [n]; when fewer than [n] bytes remain it raises no error and returns
    the bytes that remain, decoded the same way. *)
Theorem readChars_exact_or_truncated p n :
  0 <= offset p -> 0 <= n ->
  (offset p + n <= Buffer.length (msg p) ->
     readChars p n
     = (Buffer.ascii_text (Buffer.bytes_at (msg p) (offset p) n),
        set_offset p (offset p + n))
     /\ length (Buffer.bytes_at (msg p) (offset p) n) = Z.to_nat n)
  /\ (Buffer.length (msg p) < offset p + n ->
     fst (readChars p n)
     = Buffer.ascii_text (drop (Z.to_nat (offset p)) (msg p))).
Proof.
  intros Ho Hn. rewrite readChars_eq by assumption.
  unfold Buffer.bytes_at, Buffer.length. split; intros Hb.
  - split; [reflexivity|]. rewrite length_take, length_drop. lia.
  - simpl. rewrite take_ge; [reflexivity|]. rewrite length_drop. lia.
Qed.

Lemma readChars_exact_or_truncated_witness :
  readChars (mk (JKUtils.oobPrefix ++ Buffer.from_string "infoResponse") 4) 4
  = ("info", mk (JKUtils.oobPrefix ++ Buffer.from_string "infoResponse") 8)
  /\ fst (readChars (mk (JKUtils.oobPrefix ++ Buffer.from_string "info") 6) 9)
    = "fo".
Proof.
  split.
  - apply (proj1 (readChars_exact_or_truncated
             (mk (JKUtils.oobPrefix ++ Buffer.from_string "infoResponse") 4) 4
             ltac:(simpl; lia) ltac:(lia))).
    vm_compute. discriminate.
  - apply (proj2 (readChars_exact_or_truncated
             (mk (JKUtils.oobPrefix ++ Buffer.from_string "info") 6) 9
             ltac:(simpl; lia) ltac:(lia))).
    vm_compute. reflexivity.
Defined.

(** *** [splitWithStride] *)

Lemma splitWithStride_loop_stop fuel c s m acc p :
  (offset p + c <? Buffer.length (msg p))
    && ((m =? 0) || (Z.of_nat (length acc) <? m)) = false ->
  splitWithStride_loop fuel c s m acc p = Some (acc, p).
Proof. intros Hc. destruct fuel; simpl; rewrite Hc; reflexivity. Qed.

Lemma splitWithStride_loop_step fuel c s m acc p :
  (offset p + c <? Buffer.length (msg p))
    && ((m =? 0) || (Z.of_nat (length acc) <? m)) = true ->
  splitWithStride_loop (S fuel) c s m acc p
  = splitWithStride_loop fuel c s m
      (acc ++ [Buffer.slice (msg p) (offset p) (Some (offset p + c))])
      (set_offset p (offset p + c + s)).
Proof. intros Hc. simpl. rewrite Hc. reflexivity. Qed.

(** The loop from any accumulator: it runs [K] rounds, [K] being fixed by
    the loop condition, once it has at least [n] rounds of fuel, where [n]
    bounds the bytes left (no chunk limit) or the chunks still allowed. *)
Lemma splitWithStride_loop_runs (b : Buffer.t) c s m :
  0 <= c -> 0 <= s -> 0 <= m -> (1 <= c + s \/ 1 <= m) ->
  forall (n : nat) (acc : list Buffer.t) (o : Z),
    0 <= o ->
    (m = 0 \/ Z.of_nat (length acc) <= m) ->
    (Z.to_nat (if m =? 0 then Buffer.length b - o
               else m - Z.of_nat (length acc))%Z <= n)%nat ->
    exists K : nat,
      (forall fuel, (n <= fuel)%nat ->
         splitWithStride_loop fuel c s m acc (mk b o)
         = Some (acc ++ chunks_from b o c s K, mk b (o + Z.of_nat K * (c + s))))
      /\ (forall k : nat, (k < K)%nat ->
            o + Z.of_nat k * (c + s) + c < Buffer.length b)
      /\ (m = 0 \/ Z.of_nat (length acc) + Z.of_nat K <= m)
      /\ (Buffer.length b <= o + Z.of_nat K * (c + s) + c
          \/ (m <> 0 /\ Z.of_nat (length acc) + Z.of_nat K = m)).
Proof.
  intros Hc Hs Hm Hprog n.
  induction n as [|n IH]; intros acc o Ho Hacc Hn.
  - (* no round is possible *)
    exists 0%nat. simpl. rewrite Z.add_0_r, app_nil_r.
    assert ((o + c <? Buffer.length b)
              && ((m =? 0) || (Z.of_nat (length acc) <? m)) = false) as Hstop.
    { destruct (Z.eqb_spec m 0) as [Hm0|Hm0]; simpl.
      - rewrite andb_true_r. apply Z.ltb_ge. lia.
      - apply andb_false_iff. right. apply Z.ltb_ge. lia. }
    split; [|split; [|split]].
    + intros fuel _. apply (splitWithStride_loop_stop fuel c s m acc (mk b o) Hstop).
    + intros k Hk. lia.
    + lia.
    + apply andb_false_iff in Hstop as [H|H].
      * left. apply Z.ltb_ge in H. lia.
      * apply orb_false_iff in H as [H1 H2].
        apply Z.eqb_neq in H1. apply Z.ltb_ge in H2. right. lia.
  - destruct ((o + c <? Buffer.length b)
              && ((m =? 0) || (Z.of_nat (length acc) <? m))) eqn:Hcond.
    + (* one round, then the induction hypothesis *)
      apply andb_true_iff in Hcond as Hcond'. destruct Hcond' as [Hlt Hlim].
      apply Z.ltb_lt in Hlt.
      assert (m = 0 \/ (m <> 0 /\ Z.of_nat (length acc) < m)) as Hlim'.
      { destruct (Z.eqb_spec m 0); [by left|]. right. split; [done|].
        simpl in Hlim. by apply Z.ltb_lt in Hlim. }
      set (chunk := Buffer.slice b o (Some (o + c))).
      destruct (IH (acc ++ [chunk]) (o + c + s)) as (K & Hrun & Hin & Hle & Hend).
      * lia.
      * rewrite length_app. simpl. lia.
      * rewrite length_app. simpl.
        destruct (Z.eqb_spec m 0); lia.
      * exists (S K). rewrite length_app in Hle, Hend. simpl in Hle, Hend.
        split; [|split; [|split]].
        -- intros [|fuel] Hfuel; [lia|].
           rewrite (splitWithStride_loop_step fuel c s m acc (mk b o) Hcond).
           simpl msg. simpl offset. fold chunk.
           unfold set_offset. simpl msg.
           rewrite Hrun by lia.
           rewrite <- app_assoc. simpl.
           unfold chunk. rewrite slice_in_range by lia.
           unfold Buffer.bytes_at.
           replace (o + c - o) with c by lia.
           do 3 f_equal. lia.
        -- intros [|k] Hk; [simpl; lia|].
           specialize (Hin k ltac:(lia)). lia.
        -- lia.
        -- lia.
    + (* the condition fails at once *)
      exists 0%nat. simpl. rewrite Z.add_0_r, app_nil_r.
      split; [|split; [|split]].
      * intros fuel _. apply (splitWithStride_loop_stop fuel c s m acc (mk b o) Hcond).
      * intros k Hk. lia.
      * lia.
      * apply andb_false_iff in Hcond as [H|H].
        -- left. apply Z.ltb_ge in H. lia.
        -- apply orb_false_iff in H as [H1 H2].
           apply Z.eqb_neq in H1. apply Z.ltb_ge in H2. right. lia.
Qed.

(** C9 as stated fails: with exactly six bytes unread,
    [splitWithStride( 6, 1 )] produces no chunk at all and leaves the
    offset where it was. *)
Lemma splitWithStride_exact_chunk_left :
  let p := mk (JKUtils.oobPrefix ++ [x01; x02; x03; x04; x1f; x90]%byte) 4 in
  remainingBytes p = 6
  /\ forall fuel, splitWithStride fuel p 6 1 0 = Some ([], p).
Proof.
  cbv zeta. split; [reflexivity|].
  intros fuel. apply splitWithStride_loop_stop. reflexivity.
Qed.

(** C9, amended.  [splitWithStride( chunkSize, stride, numChunks )]
    returns [K] chunks, each the next [chunkSize] bytes, [stride] bytes
    being passed over after each, and leaves the offset after the last
    stride.  It goes on exactly while more than [chunkSize] bytes remain
    and, for a non-zero [numChunks], fewer than [numChunks] chunks are
    taken: every chunk was taken with more than [chunkSize] bytes left,
    and at the end at most [chunkSize] bytes remain or the limit is met. *)
Theorem splitWithStride_chunks p c s m :
  0 <= offset p -> 0 <= c -> 0 <= s -> 0 <= m -> (1 <= c + s \/ 1 <= m) ->
  exists K fuel0 : nat,
    (forall fuel, (fuel0 <= fuel)%nat ->
       splitWithStride fuel p c s m
       = Some (chunks_from (msg p) (offset p) c s K,
               set_offset p (offset p + Z.of_nat K * (c + s))))
    /\ (forall k : nat, (k < K)%nat ->
          offset p + Z.of_nat k * (c + s) + c < Buffer.length (msg p))
    /\ (m = 0 \/ Z.of_nat K <= m)
    /\ (Buffer.length (msg p) <= offset p + Z.of_nat K * (c + s) + c
        \/ (m <> 0 /\ Z.of_nat K = m)).
Proof.
  intros Ho Hc Hs Hm Hprog. destruct p as [b o]. simpl in *.
  set (n := Z.to_nat (if m =? 0 then Buffer.length b - o else m - 0)).
  destruct (splitWithStride_loop_runs b c s m Hc Hs Hm Hprog n [] o Ho)
    as (K & Hrun & Hin & Hle & Hend).
  - simpl. lia.
  - simpl. subst n. destruct (m =? 0); lia.
  - exists K, n. simpl in *. unfold splitWithStride.
    split; [|split; [|split]]; try assumption.
Qed.

Lemma splitWithStride_chunks_witness :
  exists K fuel0 : nat,
    (forall fuel, (fuel0 <= fuel)%nat ->
       splitWithStride fuel
         (mk (JKUtils.oobPrefix ++ [x01; x02; x03; x04; x1f; x90; x5c; x45]%byte) 4)
         6 1 0
       = Some (chunks_from
                 (JKUtils.oobPrefix ++ [x01; x02; x03; x04; x1f; x90; x5c; x45]%byte)
                 4 6 1 K,
               mk (JKUtils.oobPrefix ++ [x01; x02; x03; x04; x1f; x90; x5c; x45]%byte)
                  (4 + Z.of_nat K * (6 + 1))))
    /\ (forall k : nat, (k < K)%nat -> 4 + Z.of_nat k * (6 + 1) + 6 < 12)
    /\ (0 = 0 \/ Z.of_nat K <= 0)
    /\ (12 <= 4 + Z.of_nat K * (6 + 1) + 6 \/ (0 <> 0 /\ Z.of_nat K = 0)).
Proof.
  apply (splitWithStride_chunks
           (mk (JKUtils.oobPrefix ++ [x01; x02; x03; x04; x1f; x90; x5c; x45]%byte) 4)
           6 1 0); simpl; lia.
Defined.

(** *** Every read returns *)

(** With neither a chunk size nor a stride nor a chunk limit the loop of
    [splitWithStride] makes no progress. *)
Lemma splitWithStride_loop_stuck (b : Buffer.t) (o : Z) :
  o < Buffer.length b ->
  forall fuel acc, splitWithStride_loop fuel 0 0 0 acc (mk b o) = None.
Proof.
  intros Ho fuel. induction fuel as [|fuel IH]; intros acc; simpl;
    rewrite Z.add_0_r; destruct (Z.ltb_spec o (Buffer.length b)); try lia; simpl.
  - reflexivity.
  - unfold set_offset. simpl. rewrite !Z.add_0_r. apply IH.
Qed.

(** C10 as stated fails: on a freshly constructed parser with one byte to
    read, [splitWithStride( 0, 0, 0 )] never returns, whatever the number of
    rounds it is given. *)
Lemma splitWithStride_zero_never_returns :
  exists p,
    new (JKUtils.oobPrefix ++ [x41]%byte) true = inr p
    /\ forall fuel, splitWithStride fuel p 0 0 0 = None.
Proof.
  exists (mk (JKUtils.oobPrefix ++ [x41]%byte) 4). split; [reflexivity|].
  intros fuel. apply splitWithStride_loop_stuck. reflexivity.
Qed.

Lemma str_take_length (k : nat) (s : string) :
  (String.length (str_take k s) <= String.length s)%nat.
Proof.
  revert s. induction k as [|k IH]; intros [|a s]; simpl; try lia.
  specialize (IH s). lia.
Qed.

Lemma readLine_offset p :
  0 <= offset p -> 0 <= offset (snd (readLine p)).
Proof.
  intros Ho. unfold readLine, str_length.
  destruct (indexOf _ _); simpl; lia.
Qed.

Lemma splitWithStride_loop_offset c s m :
  0 <= c -> 0 <= s ->
  forall fuel acc p chunks p',
    0 <= offset p ->
    splitWithStride_loop fuel c s m acc p = Some (chunks, p') ->
    0 <= offset p'.
Proof.
  intros Hc Hs fuel. induction fuel as [|fuel IH]; intros acc p chunks p' Ho; simpl;
    destruct (_ && _); intros Heq; try discriminate;
    try (injection Heq as _ <-; exact Ho).
  apply IH in Heq; [exact Heq|]. simpl. lia.
Qed.

(** Non-negative arguments keep the offset non-negative. *)
Lemma reachable_offset p : reachable p -> 0 <= offset p.
Proof.
  induction 1 as [m v p Hnew|p p' _ IH Hstep].
  - unfold new in Hnew. destruct v.
    + destruct (Buffer.readUInt32LE _ _); [|discriminate].
      destruct (negb _); [discriminate|]. injection Hnew as <-. simpl. lia.
    + injection Hnew as <-. simpl. lia.
  - destruct Hstep as [p|p n Hn|p n Hn|p fuel c s m chunks p' Hc Hs Hm Hrun].
    + by apply readLine_offset.
    + simpl. lia.
    + unfold skip. destruct (_ <=? _); simpl; [apply length_nonneg|lia].
    + eapply splitWithStride_loop_offset; [exact Hc|exact Hs|exact IH|exact Hrun].
Qed.

(** C10, amended.  On every reachable parser state and for non-negative
    arguments the read primitives return without raising: [readLine],
    [readChars], [skip] and [remainingBytes] are straight-line code over
    Buffer operations that clamp instead of throwing, and a read that would
    pass the end of the buffer yields what is left, possibly nothing;
    [splitWithStride] returns as soon as [chunkSize + stride >= 1] or a
    chunk limit is given. *)
Theorem reads_return p :
  reachable p ->
  (String.length (fst (readLine p)) <= Z.to_nat (remainingBytes p))%nat
  /\ (forall n, 0 <= n ->
        String.length (fst (readChars p n))
        = Z.to_nat (Z.min n (remainingBytes p)))
  /\ (forall n, 0 <= n ->
        offset (snd (skip p n)) <= Buffer.length (msg p))
  /\ (forall c s m, 0 <= c -> 0 <= s -> 0 <= m -> (1 <= c + s \/ 1 <= m) ->
        exists fuel chunks p',
          splitWithStride fuel p c s m = Some (chunks, p'))
  /\ remainingBytes p = Buffer.length (msg p) - offset p.
Proof.
  intros Hreach. pose proof (reachable_offset p Hreach) as Ho.
  destruct p as [b o]. simpl in Ho.
  unfold remainingBytes, Buffer.length. simpl msg. simpl offset.
  split; [|split; [|split; [|split]]].
  - unfold readLine. simpl msg. simpl offset.
    rewrite toString_from_drop by exact Ho.
    pose proof (ascii_text_length (drop (Z.to_nat o) b)) as Hlen.
    rewrite length_drop in Hlen.
    destruct (indexOf _ _) as [idx|]; simpl.
    + pose proof (str_take_length idx (Buffer.ascii_text (drop (Z.to_nat o) b))).
      lia.
    + lia.
  - intros n Hn. rewrite readChars_eq by assumption. simpl.
    rewrite ascii_text_length. unfold Buffer.bytes_at.
    rewrite length_take, length_drop. lia.
  - intros n Hn. unfold skip, Buffer.length. simpl msg. simpl offset.
    destruct (Z.leb_spec (Z.of_nat (length b)) (o + n)); simpl; lia.
  - intros c s m Hc Hs Hm Hprog.
    destruct (splitWithStride_loop_runs b c s m Hc Hs Hm Hprog
                (Z.to_nat (if m =? 0 then Buffer.length b - o else m - 0)) [] o Ho)
      as (K & Hrun & _).
    + simpl. lia.
    + simpl. destruct (m =? 0); lia.
    + eexists _, _, _. unfold splitWithStride. apply Hrun. reflexivity.
  - reflexivity.
Qed.

Lemma reads_return_witness :
  let p := mk (JKUtils.oobPrefix ++ Buffer.from_string "EOT") 4 in
  (String.length (fst (readLine p)) <= Z.to_nat (remainingBytes p))%nat
  /\ (forall n, 0 <= n ->
        String.length (fst (readChars p n))
        = Z.to_nat (Z.min n (remainingBytes p)))
  /\ (forall n, 0 <= n ->
        offset (snd (skip p n)) <= Buffer.length (msg p))
  /\ (forall c s m, 0 <= c -> 0 <= s -> 0 <= m -> (1 <= c + s \/ 1 <= m) ->
        exists fuel chunks p',
          splitWithStride fuel p c s m = Some (chunks, p'))
  /\ remainingBytes p = Buffer.length (msg p) - offset p.
Proof.
  apply (reads_return (mk (JKUtils.oobPrefix ++ Buffer.from_string "EOT") 4)).
  apply (reachable_new (JKUtils.oobPrefix ++ Buffer.from_string "EOT") true).
  reflexivity.
Defined.

End ParserFacts.

(** ** The infostring codec *)

Section InfostringFacts.

Import JKUtils.

(** The indexed loop from position [length pre] stores the pairs of what
    is left of the token list. *)
Lemma parseInfostring_loop_pairs (fuel : nat) :
  forall (pre rest : list string) (pairs : JS.obj),
    (length rest <= fuel)%nat ->
    parseInfostring_loop fuel (pre ++ rest) (Z.of_nat (length pre)) pairs
    = fold_left store_pair (pair_tokens rest) pairs.
Proof.
  induction fuel as [|fuel IH]; intros pre rest pairs Hfuel.
  - destruct rest; [reflexivity|simpl in Hfuel; lia].
  - cbn [parseInfostring_loop].
    rewrite length_app.
    destruct rest as [|key [|value rest]].
    + simpl. destruct (Z.ltb_spec (Z.of_nat (length pre))
                         (Z.of_nat (length pre + 0) - 1)); [lia|reflexivity].
    + simpl. destruct (Z.ltb_spec (Z.of_nat (length pre))
                         (Z.of_nat (length pre + 1) - 1)); [lia|reflexivity].
    + destruct (Z.ltb_spec (Z.of_nat (length pre))
                  (Z.of_nat (length pre + length (key :: value :: rest)) - 1))
        as [_|Hge]; [|simpl in Hge; lia].
      rewrite Nat2Z.id.
      replace (Z.to_nat (Z.of_nat (length pre) + 1)) with (S (length pre)) by lia.
      assert (nth (length pre) (pre ++ key :: value :: rest) EmptyString = key)
        as -> by apply nth_middle.
      assert (nth (S (length pre)) (pre ++ key :: value :: rest) EmptyString = value)
        as ->.
      { replace (pre ++ key :: value :: rest) with ((pre ++ [key]) ++ value :: rest)
          by (rewrite <- app_assoc; reflexivity).
        replace (S (length pre)) with (length (pre ++ [key]))
          by (rewrite length_app; simpl; lia).
        apply nth_middle. }
      replace (pre ++ key :: value :: rest) with ((pre ++ [key; value]) ++ rest)
        by (rewrite <- app_assoc; reflexivity).
      replace (Z.of_nat (length pre) + 2) with (Z.of_nat (length (pre ++ [key; value])))
        by (rewrite length_app; simpl; lia).
      rewrite IH by (simpl in Hfuel; lia).
      reflexivity.
Qed.

Lemma pair_tokens_drops_odd_token (toks : list string) (last : string) :
  Nat.Even (length toks) ->
  pair_tokens (toks ++ [last]) = pair_tokens toks.
Proof.
  intros [h Hh]. revert toks Hh.
  induction h as [|h IH]; intros toks Hh.
  - destruct toks; [reflexivity|simpl in Hh; lia].
  - destruct toks as [|key [|value toks]]; simpl in Hh; try lia.
    simpl. f_equal. apply IH. lia.
Qed.

Lemma parseInfostring_stripped (text : string) :
  parseInfostring text
  = fold_left store_pair (pair_tokens (JS.split "\" (strip_leading_separator text))) ∅.
Proof.
  unfold parseInfostring. fold (strip_leading_separator text).
  apply (parseInfostring_loop_pairs _ []). reflexivity.
Qed.

(** The code's [toLowerCase] is the lower case of every code unit. *)
Lemma lower_char_code (c : ascii) :
  JS.lower_char c = ascii_of_N (lower_case_code (N_of_ascii c)).
Proof. destruct c as [[] [] [] [] [] [] [] []]; reflexivity. Qed.

Lemma toLowerCase_lower_case (s : string) : JS.toLowerCase s = lower_case s.
Proof.
  unfold lower_case. induction s as [|c s IH]; [reflexivity|].
  cbn [JS.toLowerCase list_ascii_of_string map string_of_list_ascii].
  rewrite lower_char_code, IH. reflexivity.
Qed.

(** The code's [split] gives the one list of tokens that is the text split
    on the separator. *)
Lemma split_nonempty (sep : ascii) (s : string) : JS.split sep s <> [].
Proof.
  destruct s as [|c s]; simpl; [discriminate|].
  destruct (Ascii.eqb c sep); [discriminate|].
  destruct (JS.split sep s); discriminate.
Qed.

Lemma split_is_split (sep : ascii) (s : string) : is_split sep s (JS.split sep s).
Proof.
  split; [apply split_nonempty|].
  induction s as [|c s [IHfree IHcat]].
  - split; [|reflexivity]. constructor; [intros []|constructor].
  - pose proof (split_nonempty sep s) as Hne. cbn [JS.split].
    destruct (JS.split sep s) as [|tok toks]; [contradiction|].
    destruct (Ascii.eqb_spec c sep) as [->|Hc].
    + split; [constructor; [intros []|exact IHfree]|].
      change (String.concat (String sep EmptyString) (EmptyString :: tok :: toks))
        with (String sep (String.concat (String sep EmptyString) (tok :: toks))).
      rewrite IHcat. reflexivity.
    + inversion IHfree as [|? ? Htok Htoks]; subst. split.
      * constructor; [|exact Htoks].
        intros [Heq|Hin]; [exact (Hc Heq)|exact (Htok Hin)].
      * destruct toks as [|tok' toks]; cbn [String.concat]; reflexivity.
Qed.

Lemma split_free_token (sep : ascii) (tok : string) :
  ~ In sep (list_ascii_of_string tok) -> JS.split sep tok = [tok].
Proof.
  induction tok as [|c tok IH]; intros Hfree; [reflexivity|].
  cbn [JS.split]. destruct (Ascii.eqb_spec c sep) as [->|_].
  - exfalso. apply Hfree. left. reflexivity.
  - rewrite IH; [reflexivity|]. intros Hin. apply Hfree. right. exact Hin.
Qed.

Lemma split_free_prefix (sep : ascii) (tok rest : string) :
  ~ In sep (list_ascii_of_string tok) ->
  JS.split sep (tok ++ String sep rest) = tok :: JS.split sep rest.
Proof.
  induction tok as [|c tok IH]; intros Hfree.
  - change (EmptyString ++ String sep rest)%string with (String sep rest).
    cbn [JS.split]. rewrite Ascii.eqb_refl. reflexivity.
  - change (String c tok ++ String sep rest)%string
      with (String c (tok ++ String sep rest)%string).
    cbn [JS.split]. destruct (Ascii.eqb_spec c sep) as [->|_].
    + exfalso. apply Hfree. left. reflexivity.
    + rewrite IH; [reflexivity|]. intros Hin. apply Hfree. right. exact Hin.
Qed.

Lemma is_split_unique (sep : ascii) (text : string) (toks : list string) :
  is_split sep text toks -> JS.split sep text = toks.
Proof.
  intros (Hne & Hfree & <-).
  induction Hfree as [|tok toks Htok Htoks IH]; [contradiction|].
  destruct toks as [|tok' toks].
  - apply split_free_token. exact Htok.
  - change (String.concat (String sep EmptyString) (tok :: tok' :: toks))
      with (tok ++ String sep (String.concat (String sep EmptyString) (tok' :: toks)))%string.
    rewrite split_free_prefix by exact Htok. rewrite IH by discriminate. reflexivity.
Qed.

(** What the loop stores, in terms of plain bindings in a finite map: the
    pairs but those with the key [__proto__], under their lower-cased keys. *)
Lemma store_pairs_plain (pairs : list (string * string)) :
  forall o : JS.obj,
    fold_left store_pair pairs o
    = fold_left (fun mapping kv => <[lower_case (fst kv) := snd kv]> mapping)
                (List.filter not_proto pairs) o.
Proof.
  induction pairs as [|kv pairs IH]; intros o; [reflexivity|].
  cbn [fold_left List.filter]. rewrite IH.
  unfold store_pair at 1. unfold JS.obj_set, not_proto.
  rewrite toLowerCase_lower_case.
  destruct (String.eqb (lower_case (fst kv)) "__proto__"); reflexivity.
Qed.

(** C6 as stated fails.  The text of four tokens below decodes, in the
    words of the specification, to the one mapping that binds [__proto__]
    to [x] and [a] to [b]; [parseInfostring] returns the mapping that binds
    [a] to [b] only: the pair whose key lower-cases to [__proto__] is
    lost. *)
Lemma parseInfostring_loses_proto :
  let text := "\__PROTO__\x\a\b" in
  let mapping : gmap string string := <["a" := "b"]> (<["__proto__" := "x"]> ∅) in
  decodeInfostring text mapping
  /\ (forall mapping', decodeInfostring text mapping' -> mapping' = mapping)
  /\ mapping !! "__proto__" = Some "x"
  /\ parseInfostring text !! "__proto__" = None
  /\ parseInfostring text = <["a" := "b"]> ∅.
Proof.
  cbv zeta. split; [|split].
  - exists ["__PROTO__"; "x"; "a"; "b"]. split; [|vm_compute; reflexivity].
    split; [discriminate|]. split; [|reflexivity].
    repeat constructor; cbv [list_ascii_of_string In]; intuition discriminate.
  - intros mapping' (toks & Hsplit & ->).
    apply is_split_unique in Hsplit as <-. vm_compute. reflexivity.
  - repeat split; vm_compute; reflexivity.
Qed.

(** C6, amended.  [parseInfostring] is a total function.  Its result is the
    mapping of the pairs of consecutive tokens of the text, one optional
    leading separator stripped and the rest split on the separator, each
    key lower-cased and a later pair replacing an earlier one with the same
    key, except that a pair whose lower-cased key is [__proto__] is not
    stored; with no such pair it is the decoding of the specification.  A
    trailing token without a partner leaves no trace: the text with it and
    the text without it give the same mapping. *)
Theorem parseInfostring_decodes_but_proto (info : string) :
  (exists toks,
      is_split "\" (strip_leading_separator info) toks
      /\ parseInfostring info
         = mapping_of_pairs (List.filter not_proto (pair_tokens toks))
      /\ (forallb not_proto (pair_tokens toks) = true ->
          decodeInfostring info (parseInfostring info)))
  /\ (forall (toks : list string) (last : string),
        Forall (fun tok => ~ In "\"%char (list_ascii_of_string tok)) (toks ++ [last]) ->
        Nat.Even (length toks) ->
        parseInfostring (String "\" (String.concat "\" (toks ++ [last])))
        = parseInfostring (String "\" (String.concat "\" toks))).
Proof.
  split.
  - exists (JS.split "\" (strip_leading_separator info)).
    assert (parseInfostring info
            = mapping_of_pairs
                (List.filter not_proto
                   (pair_tokens (JS.split "\" (strip_leading_separator info)))))
      as Hcode
      by (rewrite parseInfostring_stripped; apply store_pairs_plain).
    split; [apply split_is_split|]. split; [exact Hcode|].
    intros Hall. exists (JS.split "\" (strip_leading_separator info)).
    split; [apply split_is_split|].
    rewrite Hcode, forallb_filter_id by exact Hall. reflexivity.
  - intros toks last Hfree [h Hh]. rewrite !parseInfostring_stripped.
    change (strip_leading_separator (String "\" (String.concat "\" (toks ++ [last]))))
      with (String.concat "\" (toks ++ [last])).
    change (strip_leading_separator (String "\" (String.concat "\" toks)))
      with (String.concat "\" toks).
    rewrite (is_split_unique "\" _ (toks ++ [last]));
      [|split; [destruct toks; discriminate|split; [exact Hfree|reflexivity]]].
    rewrite pair_tokens_drops_odd_token by (exists h; exact Hh).
    destruct toks as [|tok toks]; [reflexivity|].
    rewrite (is_split_unique "\" _ (tok :: toks)); [reflexivity|].
    split; [discriminate|split; [|reflexivity]].
    apply Forall_app in Hfree as [Hfree _]. exact Hfree.
Qed.

Lemma parseInfostring_decodes_but_proto_witness :
  (exists toks,
      is_split "\" (strip_leading_separator "\Challenge\abc\__Proto__\x") toks
      /\ parseInfostring "\Challenge\abc\__Proto__\x"
         = mapping_of_pairs (List.filter not_proto (pair_tokens toks)))
  /\ decodeInfostring "\Challenge\abc\sv_hostname\jk\odd"
       (parseInfostring "\Challenge\abc\sv_hostname\jk\odd")
  /\ parseInfostring (String "\" (String.concat "\" (["Challenge"; "abc"] ++ ["odd"])))
     = parseInfostring (String "\" (String.concat "\" ["Challenge"; "abc"])).
Proof.
  split; [|split].
  - destruct (proj1 (parseInfostring_decodes_but_proto "\Challenge\abc\__Proto__\x"))
      as (toks & Hsplit & Hcode & _).
    exists toks. split; [exact Hsplit|exact Hcode].
  - destruct (proj1 (parseInfostring_decodes_but_proto
                       "\Challenge\abc\sv_hostname\jk\odd"))
      as (toks & Hsplit & _ & Hspec).
    apply Hspec. apply is_split_unique in Hsplit as <-. vm_compute. reflexivity.
  - apply (proj2 (parseInfostring_decodes_but_proto EmptyString) ["Challenge"; "abc"] "odd").
    + repeat constructor; cbv [list_ascii_of_string In]; intuition discriminate.
    + exists 1%nat. reflexivity.
Defined.

Example parseInfostring_sample :
  parseInfostring "\Challenge\abc\sv_hostname\jk\odd"
  = <["sv_hostname" := "jk"]> (<["challenge" := "abc"]> ∅).
Proof. vm_compute. reflexivity. Qed.

(** Ordinary keys are found as stored. *)
Lemma obj_get_set (o : JS.obj) (k v : string) :
  k <> "__proto__" -> JS.obj_get (JS.obj_set o k v) k = Some v.
Proof.
  intros Hk. unfold JS.obj_get, JS.obj_set.
  destruct (String.eqb_spec k "__proto__"); [contradiction|].
  apply lookup_insert_eq.
Qed.

(** What a key is bound to after the pairs are stored: the value of the
    last pair whose lower-cased key it is. *)
Lemma store_pairs_lookup (pairs : list (string * string)) (o : JS.obj) (k : string) :
  k <> "__proto__" ->
  JS.obj_get (fold_left store_pair pairs o) k
  = match find (fun kv => String.eqb (JS.toLowerCase (fst kv)) k) (rev pairs) with
    | Some kv => Some (snd kv)
    | None => JS.obj_get o k
    end.
Proof.
  intros Hk. induction pairs as [|kv pairs IH] using rev_ind; [reflexivity|].
  rewrite fold_left_app, rev_app_distr. simpl.
  unfold store_pair at 1. unfold JS.obj_get, JS.obj_set in *.
  destruct (String.eqb_spec (JS.toLowerCase (fst kv)) k) as [Heq|Hne].
  - destruct (String.eqb_spec (JS.toLowerCase (fst kv)) "__proto__") as [Hp|_];
      [congruence|].
    rewrite Heq. apply lookup_insert_eq.
  - destruct (String.eqb_spec (JS.toLowerCase (fst kv)) "__proto__") as [_|_].
    + exact IH.
    + rewrite lookup_insert_ne by exact Hne. exact IH.
Qed.

End InfostringFacts.

(** ** The reply handlers *)

Section CommsFacts.

Import Q3MessageParser JKComms.

(** C3 as stated fails: a reply accepted in strict mode resolves with a
    mapping that still holds the [challenge] field. *)
Lemma getinfo_keeps_challenge :
  let res :=
    mkReply (mkAddress "10.0.0.1" 29070)
      (JKUtils.oobPrefix
       ++ Buffer.from_string
            ("infoResponse" ++ JS.LF ++ "\challenge\jkutils-query\mapname\mp/ffa3")) in
  exists r,
    cts_getinfo_reply true "10.0.0.1" 29070 "jkutils-query" None res = Resolved r
    /\ JS.obj_get (info r) "challenge" = Some "jkutils-query".
Proof.
  cbv zeta. eexists. split; [vm_compute; reflexivity|]. vm_compute. reflexivity.
Qed.

(** C3, amended.  Whenever getinfo resolves, the result is the pair of
    the reply's source address and the mapping decoded from the reply's
    second line, as decoded: the [challenge] field stays in it, and in
    strict mode it is there and equal to the challenge that was sent. *)
Theorem getinfo_resolves_with_decoded_info
    (strictMode : bool) (ip : string) (port : Z) (challenge : string)
    (err : option string) (res : reply) (r : info_result) :
  cts_getinfo_reply strictMode ip port challenge err res = Resolved r ->
  exists parser,
    Q3MessageParser.new (response res) true = inr parser
    /\ info_source r = source res
    /\ info r = JKUtils.parseInfostring (fst (readLine (snd (readLine parser))))
    /\ (strictMode = true ->
          JS.obj_get (info r) "challenge" = Some challenge).
Proof.
  unfold cts_getinfo_reply. intros Hres.
  destruct err; [discriminate|].
  destruct (source_differs res ip port && strictMode); [discriminate|].
  destruct (Q3MessageParser.new (response res) true) as [e|parser]; [discriminate|].
  exists parser. split; [reflexivity|].
  destruct (readLine parser) as [command p1] eqn:Hl1.
  destruct (negb (command =? "infoResponse")%string && strictMode); [discriminate|].
  destruct (readLine p1) as [infoString p2] eqn:Hl2. simpl.
  destruct (negb (bool_decide _) && strictMode) eqn:Hch; [discriminate|].
  injection Hres as <-. simpl. rewrite Hl2. simpl.
  split; [reflexivity|]. split; [reflexivity|].
  intros ->. rewrite andb_true_r in Hch.
  apply negb_false_iff, bool_decide_eq_true in Hch. exact Hch.
Qed.

Lemma getinfo_resolves_with_decoded_info_witness :
  let res :=
    mkReply (mkAddress "10.0.0.1" 29070)
      (JKUtils.oobPrefix
       ++ Buffer.from_string ("infoResponse" ++ JS.LF ++ "\challenge\abc")) in
  let r := mkInfo (mkAddress "10.0.0.1" 29070) (<["challenge" := "abc"]> ∅) in
  exists parser,
    Q3MessageParser.new (response res) true = inr parser
    /\ info_source r = source res
    /\ info r = JKUtils.parseInfostring (fst (readLine (snd (readLine parser))))
    /\ (true = true -> JS.obj_get (info r) "challenge" = Some "abc").
Proof.
  intros res r.
  apply (getinfo_resolves_with_decoded_info true "10.0.0.1" 29070 "abc" None res r).
  vm_compute. reflexivity.
Defined.

(** *** getstatus: the client lines *)


Lemma split_without_sep (sep : ascii) (s : string) :
  indexOf sep s = None -> JS.split sep s = [s].
Proof.
  induction s as [|c s IH]; simpl; [reflexivity|].
  destruct (Ascii.eqb c sep); [discriminate|].
  destruct (indexOf sep s); [discriminate|].
  intros _. rewrite IH; reflexivity.
Qed.

Lemma indexOf_lt (sep : ascii) (s : string) (i : nat) :
  indexOf sep s = Some i -> (i < String.length s)%nat.
Proof.
  revert i. induction s as [|c s IH]; intros i; simpl; [discriminate|].
  destruct (Ascii.eqb c sep).
  - intros [= <-]. lia.
  - destruct (indexOf sep s) as [j|]; [|discriminate].
    intros [= <-]. specialize (IH j eq_refl). lia.
Qed.


Lemma ascii_text_drop (k : nat) (b : Buffer.t) :
  Buffer.ascii_text (drop k b) = str_drop k (Buffer.ascii_text b).
Proof.
  revert b. induction k as [|k IH]; intros [|x b]; simpl; try reflexivity. apply IH.
Qed.

(** [readLine] seen on the unread text: it returns the text before the
    first line feed and leaves the text after it, or returns all of the
    text and leaves none. *)
Lemma readLine_text (p : Q3MessageParser.t) :
  0 <= offset p ->
  msg (snd (readLine p)) = msg p
  /\ 0 <= offset (snd (readLine p))
  /\ match indexOf "010" (unread_text p) with
     | Some i =>
         fst (readLine p) = str_take i (unread_text p)
         /\ unread_text (snd (readLine p)) = str_drop (S i) (unread_text p)
     | None =>
         fst (readLine p) = unread_text p
         /\ unread_text (snd (readLine p)) = EmptyString
     end.
Proof.
  intros Ho. destruct p as [b o]. simpl in Ho.
  unfold readLine, unread_text. simpl msg. simpl offset.
  destruct (indexOf "010" (Buffer.toString_from b o)) as [i|] eqn:Hidx;
    cbn [fst snd msg offset set_offset].
  - split; [reflexivity|]. split; [lia|]. split; [reflexivity|].
    rewrite !toString_from_drop by lia.
    rewrite <- ascii_text_drop, drop_drop. do 2 f_equal. lia.
  - split; [reflexivity|]. unfold str_length. split; [lia|]. split; [reflexivity|].
    rewrite toString_from_drop by lia.
    rewrite toString_from_drop by exact Ho.
    rewrite ascii_text_length, length_drop.
    rewrite drop_ge by lia. reflexivity.
Qed.

Lemma unread_text_length (p : Q3MessageParser.t) :
  0 <= offset p -> (String.length (unread_text p) <= length (msg p))%nat.
Proof.
  intros Ho. unfold unread_text. rewrite toString_from_drop by exact Ho.
  rewrite ascii_text_length, length_drop. lia.
Qed.


(** *** The client pattern *)

Lemma span_digits_spec (s ds rest : string) :
  span_digits s = (ds, rest) ->
  s = (ds ++ rest)%string /\ JS.all_digits ds = true.
Proof.
  revert ds rest. induction s as [|c s IH]; intros ds rest; simpl.
  - intros [= <- <-]. split; reflexivity.
  - destruct (JS.is_digit c) eqn:Hc.
    + destruct (span_digits s) as [ds' rest'].
      intros [= <- <-]. destruct (IH ds' rest' eq_refl) as [-> Hds].
      split; [reflexivity|]. simpl. rewrite Hc. exact Hds.
    + intros [= <- <-]. split; reflexivity.
Qed.

Lemma span_digits_run (ds : string) (c : ascii) (rest : string) :
  JS.all_digits ds = true -> JS.is_digit c = false ->
  span_digits (ds ++ String c rest) = (ds, String c rest).
Proof.
  intros Hds Hc. induction ds as [|d ds IH]; simpl.
  - rewrite Hc. reflexivity.
  - simpl in Hds. apply andb_true_iff in Hds as [Hd Hds].
    rewrite Hd, (IH Hds). reflexivity.
Qed.

Lemma unsnoc_spec (s body : string) (last : ascii) :
  unsnoc s = Some (body, last) -> s = (body ++ String last EmptyString)%string.
Proof.
  revert body. induction s as [|c s IH]; intros body; simpl; [discriminate|].
  destruct s as [|c' s].
  - intros [= <- <-]. reflexivity.
  - destruct (unsnoc (String c' s)) as [[body' last']|]; [|discriminate].
    intros [= <- <-]. rewrite (IH body' eq_refl). reflexivity.
Qed.

Lemma unsnoc_snoc (body : string) (last : ascii) :
  unsnoc (body ++ String last EmptyString) = Some (body, last).
Proof.
  induction body as [|c body IH]; [reflexivity|].
  change (String c body ++ String last EmptyString)%string
    with (String c (body ++ String last EmptyString)%string).
  cbn [unsnoc]. rewrite IH.
  destruct (body ++ String last EmptyString)%string eqn:Happ; [|reflexivity].
  destruct body; discriminate.
Qed.

Lemma expect_spec (c : ascii) (s rest : string) :
  expect c s = Some rest <-> s = String c rest.
Proof.
  destruct s as [|d s]; simpl; [split; discriminate|].
  destruct (Ascii.eqb_spec d c) as [->|Hne]; split; intros H;
    inversion H; subst; try reflexivity; contradiction.
Qed.

(** [exec_client] answers with the groups of a line exactly when the line
    has the shape of the pattern with these groups. *)
Lemma exec_client_shape (line : string) (c : client) :
  exec_client line = Some c <-> client_shape line c.
Proof.
  unfold exec_client, client_shape. split.
  - destruct (span_digits line) as [sc r0] eqn:Hsc.
    apply span_digits_spec in Hsc as [-> Hscd].
    destruct (nonempty sc) eqn:Hscn; [|discriminate]. simpl.
    destruct (expect " " r0) as [r1|] eqn:Hr0; [|discriminate].
    apply expect_spec in Hr0 as ->.
    destruct (span_digits r1) as [pg r2] eqn:Hpg.
    apply span_digits_spec in Hpg as [-> Hpgd].
    destruct (nonempty pg) eqn:Hpgn; [|discriminate]. simpl.
    destruct (expect " " r2) as [r3|] eqn:Hr2; [|discriminate].
    apply expect_spec in Hr2 as ->.
    destruct (expect "034" r3) as [r4|] eqn:Hr3; [|discriminate].
    apply expect_spec in Hr3 as ->.
    destruct (unsnoc r4) as [[nm last]|] eqn:Hr4; [|discriminate].
    apply unsnoc_spec in Hr4 as ->.
    destruct (Ascii.eqb_spec last "034") as [->|]; [|discriminate]. simpl.
    destruct (nonempty nm) eqn:Hnmn; [|discriminate]. simpl.
    destruct (all_dot nm) eqn:Hnmd; [|discriminate].
    intros [= <-]. simpl. repeat split; assumption.
  - destruct c as [sc pg nm]. simpl.
    intros (-> & Hscn & Hscd & Hpgn & Hpgd & Hnmn & Hnmd).
    change (" " ++ pg ++ " " ++ JS.QUOTE ++ nm ++ JS.QUOTE)%string
      with (String " " (pg ++ String " " (JS.QUOTE ++ nm ++ JS.QUOTE)))%string.
    rewrite span_digits_run by (exact Hscd || reflexivity).
    rewrite Hscn. simpl negb. cbn iota. cbn [expect]. rewrite Ascii.eqb_refl.
    rewrite span_digits_run by (exact Hpgd || reflexivity).
    rewrite Hpgn. simpl negb. cbn iota. cbn [expect]. rewrite Ascii.eqb_refl.
    change (JS.QUOTE ++ nm ++ JS.QUOTE)%string
      with (String "034" (nm ++ String "034" EmptyString))%string.
    cbn [expect]. rewrite Ascii.eqb_refl.
    rewrite unsnoc_snoc, Ascii.eqb_refl, Hnmn, Hnmd. reflexivity.
Qed.




Example getstatus_sample :
  cts_getstatus_reply 128 true "10.0.0.1" 29070 "abc" None
    (mkReply (mkAddress "10.0.0.1" 29070)
       (JKUtils.oobPrefix
        ++ Buffer.from_string
             ("statusResponse" ++ JS.LF ++ "\challenge\abc" ++ JS.LF
              ++ "12 55 " ++ JS.QUOTE ++ "Player One" ++ JS.QUOTE ++ JS.LF
              ++ "notanumber 55 " ++ JS.QUOTE ++ "X" ++ JS.QUOTE ++ JS.LF)))
  = Some (Resolved (mkStatus (mkAddress "10.0.0.1" 29070)
                      (<["challenge" := "abc"]> ∅)
                      [mkClient "12" "55" "Player One"])).
Proof. vm_compute. reflexivity. Qed.

(** A reply without the marker resolves none of the three operations: the
    constructor throws before anything of the payload is read. *)
Lemma bad_marker_resolves_nothing
    (fuel : nat) (strictMode : bool) (ip : string) (port : Z)
    (challenge : string) (err : option string) (res : reply) (marker : Z) :
  Q3MessageParser.new (response res) true = inl (MissingStartMarker marker) ->
  (forall r, ctm_getservers_reply fuel strictMode ip port err res <> Some (Resolved r))
  /\ (forall r, cts_getinfo_reply strictMode ip port challenge err res <> Resolved r)
  /\ (forall r, cts_getstatus_reply fuel strictMode ip port challenge err res
                <> Some (Resolved r)).
Proof.
  intros Hnew.
  unfold ctm_getservers_reply, cts_getinfo_reply, cts_getstatus_reply.
  rewrite Hnew.
  repeat split; intros r; destruct err;
    destruct (source_differs res ip port && strictMode); discriminate.
Qed.

(** *** getservers *)

(** A number is never strictly equal to a string, so the search of the
    byte read among the two one-character strings always answers [-1]. *)
Lemma indexOf_number_among_strings (s1 s2 : string) (x : Z) :
  JS.indexOf [JS.VStr s1; JS.VStr s2] (JS.VNum x) = -1.
Proof. reflexivity. Qed.

(** Hence the [do ... while] that should pass over the padding after the
    command runs its body once: one byte is skipped, whatever follows. *)
Lemma skip_head_once (fuel : nat) (p : Q3MessageParser.t) :
  skip_head (S fuel) p
  = match Buffer.readUInt8 (msg (snd (skip p 1))) (offset (snd (skip p 1))) with
    | None => Some (inl RangeError)
    | Some _ => Some (inr (snd (skip p 1)))
    end.
Proof.
  cbn [skip_head].
  destruct (Buffer.readUInt8 _ _) as [x|]; [|reflexivity].
  rewrite indexOf_number_among_strings. reflexivity.
Qed.

(** C2 does not hold of the code.  On the reply of the claim (the command,
    two NUL bytes, two records, the EOT sentinel) the handler skips one pad
    byte only, so every record is read one byte early: it resolves with
    0.1.2.3:1055 and 92.5.6.7:2126 in place of 1.2.3.4:8080 and
    5.6.7.8:20000. *)
Theorem getservers_two_nul_reply :
  ctm_getservers_reply 64 true "192.0.2.1" 29060 None
    (mkReply (mkAddress "192.0.2.1" 29060)
       (JKUtils.oobPrefix ++ Buffer.from_string "getserversResponse"
        ++ [x00; x00]%byte
        ++ [x01; x02; x03; x04; x1f; x90; x5c]%byte
        ++ [x05; x06; x07; x08; x4e; x20; x5c]%byte
        ++ Buffer.from_string "EOT"))
  = Some (Resolved [JKUtils.mkServer "0.1.2.3" 1055;
                    JKUtils.mkServer "92.5.6.7" 2126]).
Proof. vm_compute. reflexivity. Qed.

(** With a single pad byte the same records are decoded as sent. *)
Example getservers_one_nul_reply :
  ctm_getservers_reply 64 true "192.0.2.1" 29060 None
    (mkReply (mkAddress "192.0.2.1" 29060)
       (JKUtils.oobPrefix ++ Buffer.from_string "getserversResponse"
        ++ [x00]%byte
        ++ [x01; x02; x03; x04; x1f; x90; x5c]%byte
        ++ [x05; x06; x07; x08; x4e; x20; x5c]%byte
        ++ Buffer.from_string "EOT"))
  = Some (Resolved [JKUtils.mkServer "1.2.3.4" 8080;
                    JKUtils.mkServer "5.6.7.8" 20000]).
Proof. vm_compute. reflexivity. Qed.

End CommsFacts.

(** ** The address codec *)

Section AddressCodecFacts.

Import JKUtils.

Example decodeServer_sample :
  decodeServer [x01; x02; x03; x04; x1f; x90]%byte = inr (mkServer "1.2.3.4" 8080).
Proof. vm_compute. reflexivity. Qed.

Lemma u8_of_u8 (z : Z) : Buffer.u8 (Buffer.of_u8 z) = z mod 256.
Proof.
  unfold Buffer.u8, Buffer.of_u8.
  pose proof (Z.mod_pos_bound z 256 ltac:(lia)) as Hz.
  destruct (Byte.of_N (Z.to_N (z mod 256))) as [x|] eqn:Hx.
  - apply Byte.to_of_N in Hx. rewrite Hx. lia.
  - apply Byte.of_N_None_iff in Hx. lia.
Qed.

Lemma length_put (b : Buffer.t) (i z : Z) :
  length (BufferWrite.put b i z) = length b.
Proof. unfold BufferWrite.put. apply length_insert. Qed.

Lemma get_put_eq (b : Buffer.t) (i z : Z) :
  0 <= i < Buffer.length b ->
  Buffer.get (BufferWrite.put b i z) i = Some (z mod 256).
Proof.
  intros Hi. unfold Buffer.get, BufferWrite.put, Buffer.length in *.
  destruct (Z.ltb_spec i 0); [lia|].
  rewrite list_lookup_insert_eq by lia. simpl. by rewrite u8_of_u8.
Qed.

Lemma get_put_ne (b : Buffer.t) (i j z : Z) :
  0 <= i -> 0 <= j -> i <> j ->
  Buffer.get (BufferWrite.put b i z) j = Buffer.get b j.
Proof.
  intros Hi Hj Hne. unfold Buffer.get, BufferWrite.put.
  destruct (Z.ltb_spec j 0); [lia|].
  rewrite list_lookup_insert_ne by lia. reflexivity.
Qed.

Lemma length_writeUInt32BE (b b' : Buffer.t) (value offset : Z) :
  BufferWrite.writeUInt32BE b value offset = Some b' -> length b' = length b.
Proof.
  unfold BufferWrite.writeUInt32BE.
  destruct ((offset <? 0) || (Buffer.length b - 4 <? offset)); [discriminate|].
  destruct ((value <? 0) || (4294967295 <? value)); [discriminate|].
  intros [= <-]. rewrite !length_put. reflexivity.
Qed.

(** The value written as the port: the OR of the two port bytes, which
    fits in one byte. *)
Lemma port_halves_or (port : Z) :
  0 <= port < 65536 ->
  0 <= JS.ToInt32 (JS.bor (JS.sar (Some port) 8) (JS.band (Some port) (Some 255))) < 256.
Proof.
  intros Hp. unfold JS.bor, JS.sar, JS.band, JS.ToInt32.
  assert (JS.wrap32 port = port) as -> by (unfold JS.wrap32; rewrite Z.mod_small; lia).
  change (JS.wrap32 255) with 255. change (8 mod 32) with 8.
  assert (0 <= Z.shiftr port 8 < 256) as Hhi.
  { rewrite Z.shiftr_div_pow2 by lia. change (2 ^ 8) with 256.
    split; [apply Z.div_pos; lia|apply Z.div_lt_upper_bound; lia]. }
  assert (0 <= Z.land port 255 < 256) as Hlo.
  { change 255 with (Z.ones 8). rewrite Z.land_ones by lia.
    apply Z.mod_pos_bound. lia. }
  assert (JS.wrap32 (Z.shiftr port 8) = Z.shiftr port 8) as ->
    by (unfold JS.wrap32; rewrite Z.mod_small; lia).
  assert (JS.wrap32 (Z.land port 255) = Z.land port 255) as ->
    by (unfold JS.wrap32; rewrite Z.mod_small; lia).
  assert (0 <= Z.lor (Z.shiftr port 8) (Z.land port 255) < 256) as Hor.
  { split; [apply Z.lor_nonneg; lia|].
    destruct (Z.eq_dec (Z.lor (Z.shiftr port 8) (Z.land port 255)) 0) as [->|Hnz]; [lia|].
    change 256 with (2 ^ 8). apply Z.log2_lt_pow2.
    - pose proof (proj2 (Z.lor_nonneg (Z.shiftr port 8) (Z.land port 255))). lia.
    - rewrite Z.log2_lor by lia.
      apply Z.max_lub_lt.
      + destruct (Z.eq_dec (Z.shiftr port 8) 0) as [->|]; [simpl; lia|].
        apply Z.log2_lt_pow2; lia.
      + destruct (Z.eq_dec (Z.land port 255) 0) as [->|]; [simpl; lia|].
        apply Z.log2_lt_pow2; lia. }
  unfold JS.wrap32. rewrite Z.mod_small; lia.
Qed.

(** A port that [encodeServer] accepts comes back from [decodeServer] below
    256: no port from 256 on survives the round trip.  The port expression
    does not look at the address, so this holds of the model whatever the
    address string; of the code it is meant for the strings of
    [decimal_parts]. *)
Lemma encodeServer_port_below_256 (ip : string) (port : Z) (b : Buffer.t) :
  0 <= port < 65536 ->
  encodeServer ip port = inr b ->
  exists s, decodeServer b = inr s /\ JKUtils.port s < 256.
Proof.
  intros Hp. unfold encodeServer.
  destruct (BufferWrite.writeUInt32BE _ _ _) as [b4|] eqn:Hw4; [|discriminate].
  pose proof (port_halves_or port Hp) as Hv.
  set (v := JS.ToInt32 (JS.bor (JS.sar (Some port) 8) _)) in *.
  clearbody v.
  assert (length b4 = 6%nat) as Hlen
    by (apply length_writeUInt32BE in Hw4; exact Hw4).
  unfold BufferWrite.writeUInt16BE, Buffer.length. rewrite Hlen.
  change ((0 + 4 <? 0) || (Z.of_nat 6 - 2 <? 0 + 4)) with false. cbn iota.
  destruct ((v <? 0) || (65535 <? v)); [discriminate|].
  intros [= <-]. unfold decodeServer, Buffer.readUInt16BE, Buffer.length.
  rewrite !length_put, Hlen. simpl (_ || _).
  change (4 + 1) with 5. change (0 + 4) with 4.
  rewrite get_put_ne by lia.
  rewrite get_put_eq by (unfold Buffer.length; rewrite ?length_put, Hlen; lia).
  rewrite get_put_eq by (unfold Buffer.length; rewrite ?length_put, Hlen; lia).
  eexists. split; [reflexivity|]. simpl.
  rewrite Z.shiftr_div_pow2 by lia. change (2 ^ 8) with 256.
  rewrite (Z.div_small v 256) by lia. rewrite (Z.mod_small v 256) by lia.
  change (0 mod 256 * 256) with 0. lia.
Qed.

(** C1 does not hold of the code.  [encodeServer] writes the value
    [(port >> 8) | (port & 0xFF)] as the 16-bit port, so for 1.2.3.4:8080
    the last two bytes are 00 9F, not 1F 90, and decoding gives port 159;
    and an address whose first octet is 128 or more makes the 32-bit word
    negative, which [writeUInt32BE] refuses. *)
Theorem encodeServer_mangles_port :
  encodeServer "1.2.3.4" 8080 = inr [x01; x02; x03; x04; x00; x9f]%byte
  /\ decodeServer [x01; x02; x03; x04; x00; x9f]%byte = inr (mkServer "1.2.3.4" 159)
  /\ encodeServer "192.168.0.1" 80 = inl RangeError.
Proof. repeat split; vm_compute; reflexivity. Qed.

End AddressCodecFacts.

(** * Further properties *)

(** ** The parser, beyond the marker *)

Section ParserMoreFacts.

Import Q3MessageParser.

Lemma u8_range (x : byte) : 0 <= Buffer.u8 x < 256.
Proof. unfold Buffer.u8. pose proof (Byte.to_N_bounded x). lia. Qed.

Lemma u8_255 (x : byte) : Buffer.u8 x = 255 -> x = xff.
Proof.
  unfold Buffer.u8. intros Hx.
  assert (Byte.to_N x = 255%N) as Hn by lia.
  pose proof (Byte.of_to_N x) as Hof. rewrite Hn in Hof.
  vm_compute in Hof. congruence.
Qed.

Lemma of_u8_u8 (x : byte) : Buffer.of_u8 (Buffer.u8 x) = x.
Proof.
  unfold Buffer.of_u8. pose proof (u8_range x) as Hx.
  rewrite Z.mod_small by exact Hx. unfold Buffer.u8.
  rewrite N2Z.id, Byte.of_to_N. reflexivity.
Qed.

(** X1.  The constructor with header validation accepts exactly the payloads
    that begin with the four bytes FF FF FF FF, and then stands right after
    them. *)
Theorem new_accepts_exactly_marked (m : Buffer.t) (p : Q3MessageParser.t) :
  new m true = inr p
  <-> (exists rest, m = JKUtils.oobPrefix ++ rest) /\ p = mk m 4.
Proof.
  unfold new. cbn [msg offset set_offset]. split.
  - destruct (Buffer.readUInt32LE m 0) as [marker|] eqn:Hrd; [|discriminate].
    destruct (Z.eqb_spec marker 4294967295) as [->|]; [|discriminate].
    simpl. intros [= <-]. split; [|reflexivity].
    unfold Buffer.readUInt32LE, Buffer.get in Hrd.
    destruct ((0 <? 0) || (Buffer.length m - 4 <? 0)); [discriminate|].
    destruct m as [|a [|b [|c [|d rest]]]]; try discriminate.
    simpl in Hrd. injection Hrd as Hsum.
    pose proof (u8_range a). pose proof (u8_range b).
    pose proof (u8_range c). pose proof (u8_range d).
    exists rest. unfold JKUtils.oobPrefix. simpl.
    rewrite (u8_255 a), (u8_255 b), (u8_255 c), (u8_255 d) by lia.
    reflexivity.
  - intros [[rest ->] ->].
    rewrite (readUInt32LE_header JKUtils.oobPrefix rest eq_refl). reflexivity.
Qed.

Lemma indexOf_take_none (c : ascii) (s : string) (i : nat) :
  indexOf c s = Some i -> indexOf c (str_take i s) = None.
Proof.
  revert i. induction s as [|d s IH]; intros i; simpl; [discriminate|].
  destruct (Ascii.eqb d c) eqn:Hd.
  - intros [= <-]. reflexivity.
  - destruct (indexOf c s) as [j|]; [|discriminate].
    intros [= <-]. simpl. rewrite Hd, (IH j eq_refl). reflexivity.
Qed.

Lemma take_sep_drop (c : ascii) (s : string) (i : nat) :
  indexOf c s = Some i ->
  s = (str_take i s ++ String c (str_drop (S i) s))%string
  /\ String.length (str_take i s) = i.
Proof.
  revert i. induction s as [|d s IH]; intros i; simpl; [discriminate|].
  destruct (Ascii.eqb_spec d c) as [->|Hne].
  - intros [= <-]. split; reflexivity.
  - destruct (indexOf c s) as [j|]; [|discriminate].
    intros [= <-]. destruct (IH j eq_refl) as [Hs Hl].
    split.
    + change (String d s
              = String d (str_take j s ++ String c (str_drop (S j) s))%string).
      f_equal. exact Hs.
    + simpl. f_equal. exact Hl.
Qed.

(** X2.  [readLine] on an offset inside the buffer never returns a line feed.
    Either the unread text is the line, a line feed and the text left
    unread, the offset having moved past that line feed; or the unread text
    holds no line feed, is returned whole, and the offset lands exactly on
    the end of the buffer. *)
Theorem readLine_line_and_rest (p : Q3MessageParser.t) :
  0 <= offset p <= Buffer.length (msg p) ->
  indexOf "010" (fst (readLine p)) = None
  /\ ((unread_text p
       = (fst (readLine p) ++ String "010" (unread_text (snd (readLine p))))%string
       /\ offset (snd (readLine p)) = offset p + str_length (fst (readLine p)) + 1
       /\ offset (snd (readLine p)) <= Buffer.length (msg p))
      \/ (unread_text p = fst (readLine p)
          /\ remainingBytes (snd (readLine p)) = 0)).
Proof.
  intros [Ho Hlen].
  destruct (readLine_text p Ho) as (Hmsg & _ & Hline).
  pose proof (unread_text_length p Ho) as Hul.
  assert (String.length (unread_text p) = Z.to_nat (Buffer.length (msg p) - offset p))
    as Htl.
  { unfold unread_text. rewrite toString_from_drop by exact Ho.
    rewrite ascii_text_length, length_drop. unfold Buffer.length. lia. }
  unfold readLine in *. fold (unread_text p) in *.
  destruct (indexOf "010" (unread_text p)) as [i|] eqn:Hidx;
    cbn [fst snd msg offset set_offset] in *.
  - destruct Hline as [_ Hrest].
    destruct (take_sep_drop _ _ _ Hidx) as [Hs Hl].
    pose proof (indexOf_lt _ _ _ Hidx) as Hi.
    split; [exact (indexOf_take_none _ _ _ Hidx)|]. left.
    fold (set_offset p (offset p + (Z.of_nat i + 1))). rewrite Hrest.
    split; [exact Hs|]. unfold str_length. rewrite Hl. split; [lia|].
    clear Hs Hrest Hmsg Hidx. rewrite Htl in Hi. lia.
  - split; [exact Hidx|]. right. split; [reflexivity|].
    unfold remainingBytes, str_length, set_offset. cbn [msg offset].
    rewrite Htl. lia.
Qed.

Lemma readLine_line_and_rest_witness :
  let p := mk (JKUtils.oobPrefix ++ Buffer.from_string ("infoResponse" ++ JS.LF ++ "\a\b")) 4 in
  indexOf "010" (fst (readLine p)) = None
  /\ ((unread_text p
       = (fst (readLine p) ++ String "010" (unread_text (snd (readLine p))))%string
       /\ offset (snd (readLine p)) = offset p + str_length (fst (readLine p)) + 1
       /\ offset (snd (readLine p)) <= Buffer.length (msg p))
      \/ (unread_text p = fst (readLine p)
          /\ remainingBytes (snd (readLine p)) = 0)).
Proof.
  intros p. apply (readLine_line_and_rest p). vm_compute. split; discriminate.
Defined.

(** X3.  [skip] answers [true] exactly when bytes are left to read after it, as
    its docstring says. *)
Theorem skip_true_iff_bytes_remain (p : Q3MessageParser.t) (n : Z) :
  fst (skip p n) = true <-> 0 < remainingBytes (snd (skip p n)).
Proof.
  unfold skip, remainingBytes.
  destruct (Z.leb_spec (Buffer.length (msg p)) (offset p + n));
    cbn [fst snd msg offset set_offset]; split; intros; try lia; try discriminate;
    reflexivity.
Qed.

Lemma splitWithStride_loop_sizes (c s m : Z) :
  0 <= c -> 0 <= s ->
  forall fuel acc p chunks p',
    0 <= offset p ->
    Forall (fun chunk : Buffer.t => length chunk = Z.to_nat c) acc ->
    (m = 0 \/ Z.of_nat (length acc) <= m) ->
    splitWithStride_loop fuel c s m acc p = Some (chunks, p') ->
    Forall (fun chunk : Buffer.t => length chunk = Z.to_nat c) chunks
    /\ (m = 0 \/ Z.of_nat (length chunks) <= m)
    /\ offset p <= offset p'.
Proof.
  intros Hc Hs fuel. induction fuel as [|fuel IH]; intros acc p chunks p' Ho Hacc Hm;
    simpl;
    destruct ((offset p + c <? Buffer.length (msg p))
              && ((m =? 0) || (Z.of_nat (length acc) <? m))) eqn:Hcond;
    intros Hrun; try discriminate;
    try (injection Hrun as <- <-; split; [exact Hacc|split; [exact Hm|lia]]).
  apply andb_true_iff in Hcond as [Hlt Hlim]. apply Z.ltb_lt in Hlt.
  apply IH in Hrun.
  - destruct Hrun as (Hall & Hcount & Hoff). simpl in Hoff.
    split; [exact Hall|]. split; [exact Hcount|lia].
  - simpl. lia.
  - apply Forall_app. split; [exact Hacc|]. constructor; [|constructor].
    rewrite slice_in_range by lia.
    rewrite length_take, length_drop. unfold Buffer.length in Hlt. lia.
  - rewrite length_app. simpl.
    destruct (Z.eqb_spec m 0); [by left|]. right.
    simpl in Hlim. apply Z.ltb_lt in Hlim. lia.
Qed.

(** X4.  Whenever [splitWithStride] returns, every chunk has exactly
    [chunkSize] bytes (a short tail is never handed out), a non-zero
    [numChunks] bounds their number, and the offset has not moved back. *)
Theorem splitWithStride_chunk_sizes
    (fuel : nat) (p : Q3MessageParser.t) (c s m : Z)
    (chunks : list Buffer.t) (p' : Q3MessageParser.t) :
  0 <= offset p -> 0 <= c -> 0 <= s -> 0 <= m ->
  splitWithStride fuel p c s m = Some (chunks, p') ->
  Forall (fun chunk : Buffer.t => length chunk = Z.to_nat c) chunks
  /\ (m = 0 \/ Z.of_nat (length chunks) <= m)
  /\ offset p <= offset p'.
Proof.
  intros Ho Hc Hs Hm Hrun.
  apply (splitWithStride_loop_sizes c s m Hc Hs fuel [] p chunks p' Ho).
  - constructor.
  - simpl. lia.
  - exact Hrun.
Qed.

Lemma splitWithStride_chunk_sizes_witness :
  let p := mk (JKUtils.oobPrefix
               ++ [x01; x02; x03; x04; x1f; x90; x5c; x45; x4f; x54]%byte) 4 in
  Forall (fun chunk : Buffer.t => length chunk = Z.to_nat 6)
    [[x01; x02; x03; x04; x1f; x90]%byte]
  /\ (0 = 0 \/ Z.of_nat (length [[x01; x02; x03; x04; x1f; x90]%byte]) <= 0)
  /\ offset p <= offset (mk (msg p) 11).
Proof.
  intros p.
  apply (splitWithStride_chunk_sizes 8 p 6 1 0
           [[x01; x02; x03; x04; x1f; x90]%byte] (mk (msg p) 11));
    try (simpl; lia).
  vm_compute. reflexivity.
Defined.

(** *** [parseStringArgs] *)

Lemma str_length_cons (c : ascii) (s : string) :
  str_length (String c s) = str_length s + 1.
Proof. unfold str_length. simpl String.length. lia. Qed.

Lemma split_where_lengths (delim : ascii -> bool) (s : string) :
  forall acc,
    fold_left (fun n arg => n + str_length arg + 1) (split_where delim s) acc
    = acc + str_length s + 1.
Proof.
  induction s as [|c s IH]; intros acc; cbn [split_where].
  - cbn [fold_left]. reflexivity.
  - rewrite str_length_cons. destruct (delim c).
    + cbn [fold_left]. rewrite IH. change (str_length EmptyString) with 0. lia.
    + destruct (split_where delim s) as [|arg args].
      * specialize (IH acc). cbn [fold_left] in *.
        unfold str_length in IH. lia.
      * specialize (IH (acc + 1)). cbn [fold_left] in *.
        rewrite str_length_cons.
        replace (acc + (str_length arg + 1) + 1)
          with (acc + 1 + str_length arg + 1) by lia.
        rewrite IH. lia.
Qed.

Lemma split_where_no_delimiter (delim : ascii -> bool) (s : string) :
  Forall (fun arg => forall c, In c (list_ascii_of_string arg) -> delim c = false)
    (split_where delim s).
Proof.
  induction s as [|c s IH]; simpl.
  - constructor; [intros c []|constructor].
  - destruct (delim c) eqn:Hc.
    + constructor; [intros d []|exact IH].
    + destruct (split_where delim s) as [|arg args].
      * constructor; [|constructor]. intros d [<-|[]]. exact Hc.
      * inversion IH as [|? ? Harg Hargs]; subst.
        constructor; [|exact Hargs].
        intros d [<-|Hd]; [exact Hc|exact (Harg d Hd)].
Qed.

(** X5.  [parseStringArgs] always returns at least one argument and no argument
    holds a delimiter.  From an offset inside the buffer it consumes all that
    was unread: the offset lands exactly on the end of the buffer.  From an
    offset at or past the end it returns the one empty argument and leaves the
    offset alone. *)
Theorem parseStringArgs_consumes_all (p : Q3MessageParser.t) (allowCRLF : bool) :
  0 <= offset p ->
  fst (parseStringArgs p allowCRLF) <> []
  /\ Forall (fun arg => forall c, In c (list_ascii_of_string arg) ->
                                  is_arg_delimiter allowCRLF c = false)
       (fst (parseStringArgs p allowCRLF))
  /\ (offset p <= Buffer.length (msg p) ->
      remainingBytes (snd (parseStringArgs p allowCRLF)) = 0)
  /\ (Buffer.length (msg p) <= offset p ->
      parseStringArgs p allowCRLF = ([EmptyString], p)).
Proof.
  intros Ho. unfold parseStringArgs. cbn [fst snd].
  split; [|split; [|split]].
  - destruct (Buffer.toString_from (msg p) (offset p)) as [|c s]; simpl;
      [discriminate|].
    destruct (is_arg_delimiter allowCRLF c); [discriminate|].
    destruct (split_where _ s); discriminate.
  - apply split_where_no_delimiter.
  - intros Hlen. rewrite split_where_lengths.
    unfold remainingBytes, set_offset, str_length. cbn [msg offset].
    rewrite toString_from_drop by exact Ho.
    rewrite ascii_text_length, length_drop. unfold Buffer.length in *. lia.
  - intros Hlen. rewrite split_where_lengths.
    rewrite toString_from_drop by exact Ho.
    rewrite drop_ge by (unfold Buffer.length in Hlen; lia).
    cbn [Buffer.ascii_text split_where]. change (str_length EmptyString) with 0.
    destruct p as [b o]. unfold set_offset. cbn [msg offset].
    replace (o + (0 + 0 + 1 - 1)) with o by lia. reflexivity.
Qed.

Lemma parseStringArgs_consumes_all_witness :
  let p := mk (JKUtils.oobPrefix ++ Buffer.from_string "getinfo xyz") 4 in
  fst (parseStringArgs p false) <> []
  /\ Forall (fun arg => forall c, In c (list_ascii_of_string arg) ->
                                  is_arg_delimiter false c = false)
       (fst (parseStringArgs p false))
  /\ (offset p <= Buffer.length (msg p) ->
      remainingBytes (snd (parseStringArgs p false)) = 0)
  /\ (Buffer.length (msg p) <= offset p ->
      parseStringArgs p false = ([EmptyString], p)).
Proof.
  intros p. apply (parseStringArgs_consumes_all p false). simpl. lia.
Defined.

End ParserMoreFacts.

(** ** The address codec, octet by octet *)

Section AddressCodecMoreFacts.

Import JKUtils.

Lemma decimal_byte_no_dot (x : byte) :
  Q3MessageParser.indexOf "." (JS.decimal (Byte.to_N x)) = None.
Proof. destruct x; reflexivity. Qed.

Lemma toNumber_decimal_byte (x : byte) :
  JS.toNumber (JS.decimal (Byte.to_N x)) = Some (Buffer.u8 x).
Proof. destruct x; reflexivity. Qed.

Lemma split_before_sep (sep : ascii) (s rest : string) :
  Q3MessageParser.indexOf sep s = None ->
  JS.split sep (s ++ String sep rest) = s :: JS.split sep rest.
Proof.
  induction s as [|c s IH]; simpl.
  - intros _. rewrite Ascii.eqb_refl. reflexivity.
  - destruct (Ascii.eqb c sep); [discriminate|].
    destruct (Q3MessageParser.indexOf sep s); [discriminate|].
    intros _. rewrite (IH eq_refl). reflexivity.
Qed.

Lemma split_dotted (a b c d : byte) :
  JS.split "." (dotted a b c d)
  = map (fun x => JS.decimal (Byte.to_N x)) [a; b; c; d].
Proof.
  change (dotted a b c d)
    with (JS.decimal (Byte.to_N a)
          ++ String "." (JS.decimal (Byte.to_N b)
          ++ String "." (JS.decimal (Byte.to_N c)
          ++ String "." (JS.decimal (Byte.to_N d)))))%string.
  rewrite !split_before_sep by apply decimal_byte_no_dot.
  rewrite split_without_sep by apply decimal_byte_no_dot. reflexivity.
Qed.

Lemma lor_shifted (hi lo k : Z) :
  0 <= k -> 0 <= lo < 2 ^ k -> Z.lor (hi * 2 ^ k) lo = hi * 2 ^ k + lo.
Proof.
  intros Hk Hlo.
  assert (Z.land (hi * 2 ^ k) lo = 0) as Hland.
  { apply Z.bits_inj'. intros n Hn. rewrite Z.land_spec, Z.bits_0.
    destruct (Z.lt_ge_cases n k).
    - rewrite Z.mul_pow2_bits_low by lia. reflexivity.
    - rewrite <- (Z.mod_small lo (2 ^ k)) by lia.
      rewrite Z.mod_pow2_bits_high by lia. apply andb_false_r. }
  rewrite <- Z.lxor_lor by exact Hland.
  symmetry. apply Z.add_nocarry_lxor. exact Hland.
Qed.

Lemma wrap32_small (z : Z) : - 2147483648 <= z < 2147483648 -> JS.wrap32 z = z.
Proof.
  intros Hz. unfold JS.wrap32.
  change (2 ^ 31) with 2147483648. change (2 ^ 32) with 4294967296.
  rewrite Z.mod_small; lia.
Qed.

(** The first octet as the signed top byte of an int32. *)
Lemma wrap32_top_byte (A : Z) :
  0 <= A < 256 ->
  JS.wrap32 (A * 16777216) = (if A <? 128 then A else A - 256) * 16777216.
Proof.
  intros HA. unfold JS.wrap32.
  change (2 ^ 31) with 2147483648. change (2 ^ 32) with 4294967296.
  destruct (Z.ltb_spec A 128).
  - rewrite Z.mod_small; lia.
  - replace (A * 16777216 + 2147483648)
      with ((A - 256) * 16777216 + 2147483648 + 1 * 4294967296) by lia.
    rewrite Z_mod_plus_full, Z.mod_small; lia.
Qed.

(** The 32-bit word [encodeServer] builds from four octets. *)
Lemma address_word (A B C D : Z) :
  0 <= A < 256 -> 0 <= B < 256 -> 0 <= C < 256 -> 0 <= D < 256 ->
  JS.ToInt32
    (JS.bor (JS.bor (JS.bor (JS.shl (Some A) 24) (JS.shl (Some B) 16))
                    (JS.shl (Some C) 8))
            (Some D))
  = (if A <? 128 then A else A - 256) * 16777216 + B * 65536 + C * 256 + D.
Proof.
  intros HA HB HC HD. unfold JS.bor, JS.shl. cbn [JS.ToInt32].
  change (24 mod 32) with 24. change (16 mod 32) with 16. change (8 mod 32) with 8.
  rewrite (wrap32_small A), (wrap32_small B), (wrap32_small C), (wrap32_small D) by lia.
  rewrite !Z.shiftl_mul_pow2 by lia.
  change (2 ^ 24) with 16777216. change (2 ^ 16) with 65536. change (2 ^ 8) with 256.
  rewrite (wrap32_top_byte A HA).
  set (As := if A <? 128 then A else A - 256).
  assert (-128 <= As < 128) as HAs by (subst As; destruct (Z.ltb_spec A 128); lia).
  rewrite (wrap32_small (As * 16777216)) by lia.
  rewrite !(wrap32_small (B * 65536)), !(wrap32_small (C * 256)) by lia.
  assert (Z.lor (As * 16777216) (B * 65536) = As * 16777216 + B * 65536) as ->.
  { pose proof (lor_shifted As (B * 65536) 24) as H.
    change (2 ^ 24) with 16777216 in H. apply H; lia. }
  rewrite (wrap32_small (As * 16777216 + B * 65536)) by lia.
  assert (Z.lor (As * 16777216 + B * 65536) (C * 256)
          = As * 16777216 + B * 65536 + C * 256) as ->.
  { pose proof (lor_shifted (As * 256 + B) (C * 256) 16) as H.
    change (2 ^ 16) with 65536 in H.
    replace ((As * 256 + B) * 65536) with (As * 16777216 + B * 65536) in H by lia.
    apply H; lia. }
  rewrite (wrap32_small (As * 16777216 + B * 65536 + C * 256)) by lia.
  assert (Z.lor (As * 16777216 + B * 65536 + C * 256) D
          = As * 16777216 + B * 65536 + C * 256 + D) as ->.
  { pose proof (lor_shifted (As * 65536 + B * 256 + C) D 8) as H.
    change (2 ^ 8) with 256 in H.
    replace ((As * 65536 + B * 256 + C) * 256)
      with (As * 16777216 + B * 65536 + C * 256) in H by lia.
    apply H; lia. }
  apply wrap32_small. lia.
Qed.

Lemma of_u8_when (z : Z) (x : byte) : z mod 256 = Buffer.u8 x -> Buffer.of_u8 z = x.
Proof.
  intros Hz. unfold Buffer.of_u8. rewrite Hz. unfold Buffer.u8.
  rewrite N2Z.id, Byte.of_to_N. reflexivity.
Qed.

(** The octets [encodeServer] and the first codec see in a dotted quad. *)
Lemma octets_of_dotted (a b c d : byte) :
  map JS.toNumber (JS.split "." (dotted a b c d))
  = [Some (Buffer.u8 a); Some (Buffer.u8 b); Some (Buffer.u8 c); Some (Buffer.u8 d)].
Proof.
  rewrite split_dotted. cbn [map]. rewrite !toNumber_decimal_byte. reflexivity.
Qed.

Lemma decodeServer_six (a b c d hi lo : byte) (rest : Buffer.t) :
  decodeServer (a :: b :: c :: d :: hi :: lo :: rest)
  = inr (mkServer (dotted a b c d) (Buffer.u8 hi * 256 + Buffer.u8 lo)).
Proof.
  unfold decodeServer, Buffer.readUInt16BE.
  rewrite slice_in_range by lia. cbn [Z.to_nat Z.sub Z.opp Z.add Pos.to_nat
    Pos.iter_op Init.Nat.add drop skipn take firstn].
  unfold Buffer.length. cbn [length].
  destruct (Z.ltb_spec (Z.of_nat (S (S (S (S (S (S (length rest))))))) - 2) 4); [lia|].
  cbn. reflexivity.
Qed.

(** X6.  [decodeServer] throws exactly on a buffer of fewer than six bytes.  On
    six bytes or more it returns a port between 0 and 65535 and looks at the
    first six bytes only. *)
Theorem decodeServer_needs_six_bytes (buffer : Buffer.t) :
  ((length buffer < 6)%nat -> decodeServer buffer = inl RangeError)
  /\ ((6 <= length buffer)%nat ->
      exists s, decodeServer buffer = inr s
                /\ 0 <= port s <= 65535
                /\ decodeServer (take 6 buffer) = inr s).
Proof.
  destruct buffer as [|a [|b [|c [|d [|hi [|lo rest]]]]]];
    (split; [intros Hlt|intros Hge]); simpl in *; try lia; try reflexivity.
  rewrite !decodeServer_six. eexists. split; [reflexivity|]. split; [|reflexivity].
  pose proof (u8_range hi). pose proof (u8_range lo). simpl. lia.
Qed.

Lemma writeUInt32BE_fresh (v : Z) :
  0 <= v <= 4294967295 ->
  BufferWrite.writeUInt32BE (repeat x00%byte 6) v 0
  = Some [Buffer.of_u8 (Z.shiftr v 24); Buffer.of_u8 (Z.shiftr v 16);
          Buffer.of_u8 (Z.shiftr v 8); Buffer.of_u8 v; x00; x00]%byte.
Proof.
  intros Hv. unfold BufferWrite.writeUInt32BE.
  change ((0 <? 0) || (Buffer.length (repeat x00 6) - 4 <? 0)) with false.
  cbn iota.
  destruct (Z.ltb_spec v 0); [lia|]. destruct (Z.ltb_spec 4294967295 v); [lia|].
  reflexivity.
Qed.

Lemma writeUInt16BE_at_4 (a b c d e f : byte) (h : Z) :
  0 <= h <= 65535 ->
  BufferWrite.writeUInt16BE [a; b; c; d; e; f] h 4
  = Some [a; b; c; d; Buffer.of_u8 (Z.shiftr h 8); Buffer.of_u8 h].
Proof.
  intros Hh. unfold BufferWrite.writeUInt16BE.
  change ((4 <? 0) || (Buffer.length [a; b; c; d; e; f] - 2 <? 4)) with false.
  cbn iota.
  destruct (Z.ltb_spec h 0); [lia|]. destruct (Z.ltb_spec 65535 h); [lia|].
  reflexivity.
Qed.

(** What [encodeServer] makes of a dotted quad: the signed 32-bit word of
    the four octets, then the two port bytes OR-ed into one. *)
Lemma encodeServer_dotted (a b c d : byte) (port : Z) :
  encodeServer (dotted a b c d) port
  = match BufferWrite.writeUInt32BE (repeat x00%byte 6)
            ((if Buffer.u8 a <? 128 then Buffer.u8 a else Buffer.u8 a - 256) * 16777216
             + Buffer.u8 b * 65536 + Buffer.u8 c * 256 + Buffer.u8 d) 0 with
    | None => inl RangeError
    | Some buffer =>
        match BufferWrite.writeUInt16BE buffer
                (JS.ToInt32 (JS.bor (JS.sar (Some port) 8)
                                    (JS.band (Some port) (Some 255)))) 4 with
        | None => inl RangeError
        | Some buffer => inr buffer
        end
    end.
Proof.
  unfold encodeServer. rewrite octets_of_dotted. cbn [nth_error mjoin option_join].
  rewrite address_word by apply u8_range. reflexivity.
Qed.

(** X7.  The round trip the codec does make: an address with a first octet
    below 128 and a port below 256 is encoded as its four octets followed by
    00 and the port byte, and decoded back to itself. *)
Theorem encodeServer_round_trip_low (a b c d : byte) (port : Z) :
  Buffer.u8 a < 128 -> 0 <= port < 256 ->
  encodeServer (dotted a b c d) port = inr [a; b; c; d; x00; Buffer.of_u8 port]
  /\ decodeServer [a; b; c; d; x00; Buffer.of_u8 port]
    = inr (mkServer (dotted a b c d) port).
Proof.
  intros Ha Hp.
  pose proof (u8_range a) as HA. pose proof (u8_range b) as HB.
  pose proof (u8_range c) as HC. pose proof (u8_range d) as HD.
  split.
  - rewrite encodeServer_dotted.
    destruct (Z.ltb_spec (Buffer.u8 a) 128) as [_|]; [|lia].
    set (v := Buffer.u8 a * 16777216 + Buffer.u8 b * 65536 + Buffer.u8 c * 256
              + Buffer.u8 d).
    assert (0 <= v < 2147483648) as Hv by (subst v; lia).
    rewrite writeUInt32BE_fresh by lia.
    assert (JS.ToInt32 (JS.bor (JS.sar (Some port) 8) (JS.band (Some port) (Some 255)))
            = port) as ->.
    { unfold JS.bor, JS.sar, JS.band. cbn [JS.ToInt32].
      rewrite (wrap32_small port), (wrap32_small 255) by lia.
      change (8 mod 32) with 8.
      rewrite Z.shiftr_div_pow2 by lia. change (2 ^ 8) with 256.
      rewrite Z.div_small by lia.
      change 255 with (Z.ones 8). rewrite Z.land_ones by lia.
      change (2 ^ 8) with 256. rewrite (Z.mod_small port 256) by lia.
      change (JS.wrap32 0) with 0. rewrite (wrap32_small port) by lia.
      rewrite Z.lor_0_l. apply wrap32_small. lia. }
    rewrite writeUInt16BE_at_4 by lia.
    rewrite !Z.shiftr_div_pow2 by lia.
    change (2 ^ 24) with 16777216. change (2 ^ 16) with 65536. change (2 ^ 8) with 256.
    rewrite (of_u8_when (v / 16777216) a), (of_u8_when (v / 65536) b),
      (of_u8_when (v / 256) c), (of_u8_when v d), (of_u8_when (port / 256) x00).
    + reflexivity.
    + rewrite Z.div_small by lia. reflexivity.
    + subst v. Z.div_mod_to_equations. lia.
    + subst v. Z.div_mod_to_equations. lia.
    + subst v. Z.div_mod_to_equations. lia.
    + subst v. Z.div_mod_to_equations. lia.
  - rewrite decodeServer_six. change (Buffer.u8 x00) with 0.
    rewrite u8_of_u8, Z.mod_small by lia. reflexivity.
Qed.

Lemma encodeServer_round_trip_low_witness :
  encodeServer (dotted x0a x00 x00 x01) 80
  = inr [x0a; x00; x00; x01; x00; Buffer.of_u8 80]%byte
  /\ decodeServer [x0a; x00; x00; x01; x00; Buffer.of_u8 80]%byte
    = inr (mkServer (dotted x0a x00 x00 x01) 80).
Proof.
  apply (encodeServer_round_trip_low x0a x00 x00 x01 80); vm_compute;
    [reflexivity|split; [discriminate|reflexivity]].
Defined.

(** X8.  An address whose first octet is 128 or more is never encoded: the word
    is negative as an int32 and [writeUInt32BE] throws. *)
Theorem encodeServer_high_octet_throws (a b c d : byte) (port : Z) :
  128 <= Buffer.u8 a ->
  encodeServer (dotted a b c d) port = inl RangeError.
Proof.
  intros Ha.
  pose proof (u8_range a) as HA. pose proof (u8_range b) as HB.
  pose proof (u8_range c) as HC. pose proof (u8_range d) as HD.
  rewrite encodeServer_dotted.
  destruct (Z.ltb_spec (Buffer.u8 a) 128) as [|_]; [lia|].
  unfold BufferWrite.writeUInt32BE.
  change ((0 <? 0) || (Buffer.length (repeat x00 6) - 4 <? 0)) with false.
  cbn iota.
  destruct (Z.ltb_spec ((Buffer.u8 a - 256) * 16777216 + Buffer.u8 b * 65536
                        + Buffer.u8 c * 256 + Buffer.u8 d) 0); [reflexivity|lia].
Qed.

Lemma encodeServer_high_octet_throws_witness :
  encodeServer (dotted xc0 xa8 x00 x01) 29070 = inl RangeError.
Proof.
  apply (encodeServer_high_octet_throws xc0 xa8 x00 x01 29070).
  vm_compute. discriminate.
Defined.

(** X9.  No port from 256 on survives [encodeServer]: for an address string
    made of runs of at most fifteen decimal digits between its dots (the
    strings on which the model's unary [+] is the code's), when the
    encoding succeeds, decoding it gives a port below 256, hence another
    port. *)
Theorem encodeServer_loses_ports_from_256 (ip : string) (port : Z) (b : Buffer.t) :
  decimal_parts ip = true ->
  256 <= port < 65536 ->
  encodeServer ip port = inr b ->
  exists s, decodeServer b = inr s
            /\ JKUtils.port s < 256 /\ JKUtils.port s <> port.
Proof.
  intros _ Hp Henc.
  destruct (encodeServer_port_below_256 ip port b ltac:(lia) Henc) as (s & Hdec & Hlt).
  exists s. split; [exact Hdec|]. split; [exact Hlt|lia].
Qed.

Lemma encodeServer_loses_ports_from_256_witness :
  exists s, decodeServer [x01; x02; x03; x04; x00; x9f]%byte = inr s
            /\ JKUtils.port s < 256 /\ JKUtils.port s <> 8080.
Proof.
  apply (encodeServer_loses_ports_from_256 "1.2.3.4" 8080
           [x01; x02; x03; x04; x00; x9f]%byte).
  - reflexivity.
  - lia.
  - vm_compute. reflexivity.
Defined.

End AddressCodecMoreFacts.

(** ** The first address codec *)

Section LegacyCodecFacts.

Import JKUtils.

Lemma legacy_decodeServer_six (a b c d hi lo : byte) (rest : Buffer.t) :
  Legacy.decodeServer (a :: b :: c :: d :: hi :: lo :: rest)
  = mkServer (dotted a b c d) (Buffer.u8 hi * 256 + Buffer.u8 lo).
Proof.
  unfold Legacy.decodeServer.
  rewrite !slice_in_range by lia.
  change (take (Z.to_nat (6 - 4))
            (drop (Z.to_nat 4) (a :: b :: c :: d :: hi :: lo :: rest)))
    with [hi; lo].
  change (take (Z.to_nat (4 - 0))
            (drop (Z.to_nat 0) (a :: b :: c :: d :: hi :: lo :: rest)))
    with [a; b; c; d].
  change (Buffer.get [hi; lo] 1) with (Some (Buffer.u8 lo)).
  change (Buffer.get [hi; lo] 0) with (Some (Buffer.u8 hi)).
  pose proof (u8_range hi) as Hhi. pose proof (u8_range lo) as Hlo.
  f_equal. unfold JS.bor, JS.shl. cbn [JS.ToInt32].
  change (8 mod 32) with 8.
  rewrite (wrap32_small (Buffer.u8 hi)), (wrap32_small (Buffer.u8 lo)) by lia.
  rewrite Z.shiftl_mul_pow2 by lia.
  pose proof (lor_shifted (Buffer.u8 hi) (Buffer.u8 lo) 8) as Hor.
  change (2 ^ 8) with 256 in *.
  rewrite !(wrap32_small (Buffer.u8 hi * 256)) by lia.
  rewrite Z.lor_comm, Hor by lia. apply wrap32_small. lia.
Qed.

Lemma legacy_encodeServer_dotted (a b c d : byte) (port : Z) :
  0 <= port < 65536 ->
  Legacy.encodeServer (dotted a b c d) port
  = [a; b; c; d; Buffer.of_u8 (port / 256); Buffer.of_u8 port].
Proof.
  intros Hp. unfold Legacy.encodeServer.
  rewrite split_dotted. cbn [map nth_error mbind option_bind].
  rewrite !toNumber_decimal_byte.
  unfold Legacy.put_value, JS.sar, JS.band. cbn [default JS.ToInt32].
  rewrite (wrap32_small port), (wrap32_small 255) by lia.
  change (8 mod 32) with 8.
  rewrite Z.shiftr_div_pow2 by lia. change (2 ^ 8) with 256.
  change 255 with (Z.ones 8). rewrite Z.land_ones by lia. change (2 ^ 8) with 256.
  unfold BufferWrite.put.
  cbv [insert list_insert Z.to_nat Pos.to_nat Pos.iter_op Init.Nat.add repeat].
  unfold id. rewrite !of_u8_u8.
  rewrite (of_u8_when (port mod 256) (Buffer.of_u8 port)); [reflexivity|].
  rewrite u8_of_u8. apply Z.mod_mod. lia.
Qed.

(** X10.  The first codec round-trips every address: any four octets and any
    16-bit port are encoded as the octets followed by the high and the low
    port byte, and decoded back to themselves. *)
Theorem legacy_codec_round_trip (a b c d : byte) (port : Z) :
  0 <= port < 65536 ->
  Legacy.encodeServer (dotted a b c d) port
  = [a; b; c; d; Buffer.of_u8 (port / 256); Buffer.of_u8 port]
  /\ Legacy.decodeServer (Legacy.encodeServer (dotted a b c d) port)
    = mkServer (dotted a b c d) port.
Proof.
  intros Hp. rewrite legacy_encodeServer_dotted by exact Hp.
  split; [reflexivity|]. rewrite legacy_decodeServer_six, !u8_of_u8.
  f_equal. Z.div_mod_to_equations. lia.
Qed.

Lemma legacy_codec_round_trip_witness :
  Legacy.encodeServer (dotted xc0 xa8 x00 x01) 29070
  = [xc0; xa8; x00; x01; Buffer.of_u8 (29070 / 256); Buffer.of_u8 29070]%byte
  /\ Legacy.decodeServer (Legacy.encodeServer (dotted xc0 xa8 x00 x01) 29070)
    = mkServer (dotted xc0 xa8 x00 x01) 29070.
Proof. apply (legacy_codec_round_trip xc0 xa8 x00 x01 29070). lia. Defined.

(** X11.  On a buffer of six bytes or more the two [decodeServer] agree; the
    rewrite differs only in throwing on a shorter one. *)
Theorem decodeServer_agrees_with_legacy (buffer : Buffer.t) :
  (6 <= length buffer)%nat ->
  decodeServer buffer = inr (Legacy.decodeServer buffer).
Proof.
  destruct buffer as [|a [|b [|c [|d [|hi [|lo rest]]]]]]; simpl; try lia.
  intros _. rewrite decodeServer_six, legacy_decodeServer_six. reflexivity.
Qed.

Lemma decodeServer_agrees_with_legacy_witness :
  decodeServer [x01; x02; x03; x04; x1f; x90; x5c]%byte
  = inr (Legacy.decodeServer [x01; x02; x03; x04; x1f; x90; x5c]%byte).
Proof.
  apply (decodeServer_agrees_with_legacy [x01; x02; x03; x04; x1f; x90; x5c]%byte).
  simpl. lia.
Defined.

End LegacyCodecFacts.

(** ** Infostrings and colour codes *)

Section InfostringMoreFacts.

Import JKUtils.

Lemma lower_char_idem (c : ascii) : JS.lower_char (JS.lower_char c) = JS.lower_char c.
Proof. destruct c as [[] [] [] [] [] [] [] []]; reflexivity. Qed.

Lemma toLowerCase_idem (s : string) : JS.toLowerCase (JS.toLowerCase s) = JS.toLowerCase s.
Proof. induction s as [|c s IH]; simpl; [reflexivity|]. by rewrite lower_char_idem, IH. Qed.

Lemma store_pairs_keys (P : string -> Prop) (pairs : list (string * string)) :
  (forall kv, In kv pairs -> P (JS.toLowerCase (fst kv))) ->
  forall o : JS.obj,
    (forall k v, o !! k = Some v -> P k) ->
    forall k v, fold_left store_pair pairs o !! k = Some v -> P k.
Proof.
  induction pairs as [|kv pairs IH]; intros Hpairs o Ho; simpl; [exact Ho|].
  apply IH; [intros kv' Hin; apply Hpairs; by right|].
  intros k v. unfold store_pair, JS.obj_set.
  destruct (String.eqb _ "__proto__"); [apply Ho|].
  intros [[<- _]|[_ Hk]]%lookup_insert_Some; [apply Hpairs; by left|exact (Ho k v Hk)].
Qed.

(** X12.  Every key of the mapping [parseInfostring] returns is lower-case, so a
    lookup with a key that holds a capital letter finds nothing. *)
Theorem parseInfostring_keys_lower_case (info k : string) :
  (forall v, parseInfostring info !! k = Some v -> JS.toLowerCase k = k)
  /\ (JS.toLowerCase k <> k -> parseInfostring info !! k = None).
Proof.
  assert (forall v, parseInfostring info !! k = Some v -> JS.toLowerCase k = k) as Hlow.
  { intros v. rewrite parseInfostring_stripped.
    apply (store_pairs_keys (fun k => JS.toLowerCase k = k)).
    - intros kv _. apply toLowerCase_idem.
    - intros k' v'. rewrite lookup_empty. discriminate. }
  split; [exact Hlow|].
  intros Hne. destruct (parseInfostring info !! k) as [v|] eqn:Hk; [|reflexivity].
  exfalso. exact (Hne (Hlow v eq_refl)).
Qed.

(** X13.  With a key given twice the last pair wins: a key other than
    [__proto__] is bound to the value of the last pair of the infostring
    whose lower-cased key it is, and to nothing when there is none. *)
Theorem parseInfostring_last_pair_wins (info k : string) :
  k <> "__proto__" ->
  parseInfostring info !! k
  = match find (fun kv => String.eqb (JS.toLowerCase (fst kv)) k)
               (rev (pair_tokens (JS.split "\" (strip_leading_separator info)))) with
    | Some kv => Some (snd kv)
    | None => None
    end.
Proof.
  intros Hk. rewrite parseInfostring_stripped.
  pose proof (store_pairs_lookup
                (pair_tokens (JS.split "\" (strip_leading_separator info))) ∅ k Hk)
    as Hlookup.
  unfold JS.obj_get in Hlookup. rewrite Hlookup, lookup_empty. reflexivity.
Qed.

Lemma parseInfostring_last_pair_wins_witness :
  parseInfostring "\map\ffa1\Map\ffa3" !! "map"
  = match find (fun kv => String.eqb (JS.toLowerCase (fst kv)) "map")
               (rev (pair_tokens (JS.split "\"
                       (strip_leading_separator "\map\ffa1\Map\ffa3")))) with
    | Some kv => Some (snd kv)
    | None => None
    end.
Proof.
  apply (parseInfostring_last_pair_wins "\map\ffa1\Map\ffa3" "map"). discriminate.
Defined.

Lemma store_pairs_no_proto (pairs : list (string * string)) :
  forall o : JS.obj,
    o !! "__proto__" = None ->
    fold_left store_pair pairs o !! "__proto__" = None.
Proof.
  induction pairs as [|kv pairs IH]; intros o Ho; simpl; [exact Ho|].
  apply IH. unfold store_pair, JS.obj_set.
  destruct (String.eqb_spec (JS.toLowerCase (fst kv)) "__proto__") as [|Hne];
    [exact Ho|].
  rewrite lookup_insert_ne by exact Hne. exact Ho.
Qed.

(** X14.  The mapping never gets a property named [__proto__]: a pair with this
    key, in any letter case, is lost. *)
Theorem parseInfostring_never_stores_proto (info : string) :
  parseInfostring info !! "__proto__" = None.
Proof.
  rewrite parseInfostring_stripped. apply store_pairs_no_proto. apply lookup_empty.
Qed.

Lemma split_join_tokens (sep : ascii) (toks : list string) :
  Forall (fun tok => Q3MessageParser.indexOf sep tok = None) toks ->
  toks <> [] ->
  JS.split sep (JS.join (String sep EmptyString) toks) = toks.
Proof.
  induction toks as [|tok toks IH]; intros Hall Hne; [contradiction|].
  inversion Hall as [|? ? Htok Htoks]; subst.
  destruct toks as [|tok' toks].
  - simpl. apply split_without_sep. exact Htok.
  - change (JS.join (String sep EmptyString) (tok :: tok' :: toks))
      with (tok ++ String sep (JS.join (String sep EmptyString) (tok' :: toks)))%string.
    rewrite split_before_sep by exact Htok.
    rewrite IH; [reflexivity|exact Htoks|discriminate].
Qed.

Lemma pair_tokens_tokens_of (pairs : list (string * string)) :
  pair_tokens (tokens_of pairs) = pairs.
Proof.
  induction pairs as [|[k v] pairs IH]; simpl; [reflexivity|]. by rewrite IH.
Qed.

Lemma tokens_of_no_sep (sep : ascii) (pairs : list (string * string)) :
  Forall (fun kv => Q3MessageParser.indexOf sep (fst kv) = None
                    /\ Q3MessageParser.indexOf sep (snd kv) = None) pairs ->
  Forall (fun tok => Q3MessageParser.indexOf sep tok = None) (tokens_of pairs).
Proof.
  induction 1 as [|[k v] pairs [Hk Hv] _ IH]; simpl; [constructor|].
  constructor; [exact Hk|]. constructor; [exact Hv|exact IH].
Qed.

(** X15.  Decoding what was encoded: for pairs whose keys and values hold no
    separator, [parseInfostring] of the infostring that carries them, with
    the leading separator, is the mapping of these pairs in order, keys
    lower-cased, but for the pairs whose key is [__proto__] in any letter
    case, which are left out; with no such pair it is the mapping of all
    the pairs.  The form without the leading separator gives the same as
    long as the first key is not empty. *)
Theorem parseInfostring_of_pairs (pairs : list (string * string)) :
  Forall (fun kv => Q3MessageParser.indexOf "\" (fst kv) = None
                    /\ Q3MessageParser.indexOf "\" (snd kv) = None) pairs ->
  parseInfostring (String "\" (infostring_of pairs))
  = mapping_of_pairs (List.filter not_proto pairs)
  /\ (forallb not_proto pairs = true ->
      parseInfostring (String "\" (infostring_of pairs)) = mapping_of_pairs pairs)
  /\ ((forall v rest, pairs <> (EmptyString, v) :: rest) ->
      parseInfostring (infostring_of pairs)
      = mapping_of_pairs (List.filter not_proto pairs)).
Proof.
  intros Hpairs.
  assert (fold_left store_pair (pair_tokens (JS.split "\" (infostring_of pairs))) ∅
          = mapping_of_pairs (List.filter not_proto pairs)) as Hsplit.
  { unfold mapping_of_pairs. rewrite <- store_pairs_plain.
    destruct pairs as [|kv pairs]; [reflexivity|].
    unfold infostring_of. rewrite split_join_tokens.
    - rewrite pair_tokens_tokens_of. reflexivity.
    - apply tokens_of_no_sep. exact Hpairs.
    - destruct kv. discriminate. }
  assert (parseInfostring (String "\" (infostring_of pairs))
          = mapping_of_pairs (List.filter not_proto pairs)) as Hlead
    by (rewrite parseInfostring_stripped; exact Hsplit).
  split; [exact Hlead|]. split.
  - intros Hall. rewrite Hlead, forallb_filter_id by exact Hall. reflexivity.
  - intros Hfirst. rewrite parseInfostring_stripped.
    assert (strip_leading_separator (infostring_of pairs) = infostring_of pairs) as ->;
      [|exact Hsplit].
    destruct pairs as [|[k v] pairs]; [reflexivity|].
    inversion Hpairs as [|? ? [Hk _] _]; subst. simpl in Hk.
    destruct k as [|c k]; [exfalso; exact (Hfirst v pairs eq_refl)|].
    unfold infostring_of. simpl in *.
    destruct (Ascii.eqb_spec c "\") as [->|Hc]; [discriminate|].
    unfold strip_leading_separator.
    destruct c as [[] [] [] [] [] [] [] []]; try reflexivity. contradiction.
Qed.

Lemma parseInfostring_of_pairs_witness :
  let pairs := [("sv_hostname", "jk"); ("__Proto__", "x"); ("Mapname", "ffa3")] in
  parseInfostring (String "\" (infostring_of pairs))
  = mapping_of_pairs (List.filter not_proto pairs)
  /\ (forallb not_proto pairs = true ->
      parseInfostring (String "\" (infostring_of pairs)) = mapping_of_pairs pairs)
  /\ ((forall v rest, pairs <> (EmptyString, v) :: rest) ->
      parseInfostring (infostring_of pairs)
      = mapping_of_pairs (List.filter not_proto pairs)).
Proof.
  intros pairs.
  apply (parseInfostring_of_pairs pairs).
  repeat constructor.
Defined.

Lemma stripColours_plain_prefix (text rest : string) :
  Q3MessageParser.indexOf "^" text = None ->
  stripColours (text ++ rest) = (text ++ stripColours rest)%string.
Proof.
  induction text as [|c text IH]; intros Hplain; [reflexivity|].
  simpl in Hplain. destruct (Ascii.eqb c "^") eqn:Hc; [discriminate|].
  destruct (Q3MessageParser.indexOf "^" text) eqn:Htext; [discriminate|].
  specialize (IH eq_refl).
  change (String c text ++ rest)%string with (String c (text ++ rest)%string).
  cbn [stripColours]. rewrite Hc. cbn [andb].
  destruct (text ++ rest)%string as [|d tail] eqn:Happ.
  - destruct text; [|discriminate].
    change (String c EmptyString = String c (EmptyString ++ stripColours rest)%string).
    rewrite <- IH. reflexivity.
  - rewrite IH. reflexivity.
Qed.

(** X16.  [stripColours] gives back the plain text of a coloured one: when every
    code is a caret and a digit and no segment holds a caret, the segments
    come out joined and untouched; in particular a text without a caret is
    left as it is. *)
Theorem stripColours_coloured (text : string) (segments : list (ascii * string)) :
  Q3MessageParser.indexOf "^" text = None ->
  Forall (fun seg => JS.is_digit (fst seg) = true
                     /\ Q3MessageParser.indexOf "^" (snd seg) = None) segments ->
  stripColours (text ++ coloured segments) = (text ++ plain segments)%string.
Proof.
  intros Htext Hsegs. rewrite stripColours_plain_prefix by exact Htext. f_equal.
  induction Hsegs as [|[d seg] segments [Hd Hseg] _ IH]; [reflexivity|].
  simpl in Hd, Hseg. cbn [coloured plain stripColours].
  rewrite Hd. simpl (Ascii.eqb "^" "^" && true).
  rewrite stripColours_plain_prefix by exact Hseg. rewrite IH. reflexivity.
Qed.

Lemma stripColours_coloured_witness :
  stripColours ("[" ++ coloured [("1"%char, "Red"); ("7"%char, " plain")])
  = ("[" ++ plain [("1"%char, "Red"); ("7"%char, " plain")])%string.
Proof.
  apply (stripColours_coloured "[" [("1"%char, "Red"); ("7"%char, " plain")]).
  - reflexivity.
  - repeat constructor.
Defined.

End InfostringMoreFacts.

(** ** The reply handlers: what is accepted, what is returned *)

Section CommsMoreFacts.

Import Q3MessageParser JKComms.

Lemma source_matches (res : reply) (ip : string) (port : Z) :
  source_differs res ip port = false <-> source res = mkAddress ip port.
Proof.
  unfold source_differs. destruct (source res) as [sip sport]. simpl.
  destruct (String.eqb_spec sip ip) as [->|Hip];
    destruct (Z.eqb_spec sport port) as [->|Hport]; simpl;
    split; intros H; try discriminate; try reflexivity; congruence.
Qed.

(** X17.  In strict mode getinfo resolves only on a reply that came from the
    address asked, whose first line is [infoResponse] and whose infostring
    echoes the challenge. *)
Theorem getinfo_strict_accepts_only_matching
    (ip : string) (port : Z) (challenge : string)
    (err : option string) (res : reply) (r : info_result) :
  cts_getinfo_reply true ip port challenge err res = Resolved r ->
  err = None
  /\ source res = mkAddress ip port
  /\ exists parser,
      Q3MessageParser.new (response res) true = inr parser
      /\ fst (readLine parser) = "infoResponse"
      /\ JS.obj_get (JKUtils.parseInfostring (fst (readLine (snd (readLine parser)))))
           "challenge" = Some challenge.
Proof.
  unfold cts_getinfo_reply. destruct err; [discriminate|].
  rewrite !andb_true_r.
  destruct (source_differs res ip port) eqn:Hsrc; [discriminate|].
  apply source_matches in Hsrc.
  destruct (Q3MessageParser.new (response res) true) as [e|parser]; [discriminate|].
  destruct (readLine parser) as [command p1] eqn:Hl1.
  destruct (String.eqb_spec command "infoResponse") as [->|]; [|discriminate].
  cbn [negb]. destruct (readLine p1) as [infoString p2] eqn:Hl2.
  destruct (bool_decide _) eqn:Hch; [|discriminate].
  apply bool_decide_eq_true in Hch. intros _.
  split; [reflexivity|]. split; [exact Hsrc|].
  exists parser. rewrite Hl1. cbn [fst snd]. rewrite Hl2. cbn [fst].
  split; [reflexivity|]. split; [reflexivity|exact Hch].
Qed.

Lemma getinfo_strict_accepts_only_matching_witness :
  let res :=
    mkReply (mkAddress "10.0.0.1" 29070)
      (JKUtils.oobPrefix
       ++ Buffer.from_string ("infoResponse" ++ JS.LF ++ "\challenge\abc")) in
  None = (None : option string)
  /\ source res = mkAddress "10.0.0.1" 29070
  /\ exists parser,
      Q3MessageParser.new (response res) true = inr parser
      /\ fst (readLine parser) = "infoResponse"
      /\ JS.obj_get (JKUtils.parseInfostring (fst (readLine (snd (readLine parser)))))
           "challenge" = Some "abc".
Proof.
  intros res.
  apply (getinfo_strict_accepts_only_matching "10.0.0.1" 29070 "abc" None res
           (mkInfo (mkAddress "10.0.0.1" 29070) (<["challenge" := "abc"]> ∅))).
  vm_compute. reflexivity.
Defined.

(** X18.  The same for getstatus: strict mode resolves only on a reply from the
    address asked, headed [statusResponse] and echoing the challenge. *)
Theorem getstatus_strict_accepts_only_matching
    (fuel : nat) (ip : string) (port : Z) (challenge : string)
    (err : option string) (res : reply) (r : status_result) :
  cts_getstatus_reply fuel true ip port challenge err res = Some (Resolved r) ->
  err = None
  /\ source res = mkAddress ip port
  /\ status_source r = source res
  /\ JS.obj_get (status r) "challenge" = Some challenge
  /\ exists parser,
      Q3MessageParser.new (response res) true = inr parser
      /\ fst (readLine parser) = "statusResponse"
      /\ status r = JKUtils.parseInfostring (fst (readLine (snd (readLine parser)))).
Proof.
  unfold cts_getstatus_reply. destruct err; [discriminate|].
  rewrite !andb_true_r.
  destruct (source_differs res ip port) eqn:Hsrc; [discriminate|].
  apply source_matches in Hsrc.
  destruct (Q3MessageParser.new (response res) true) as [e|parser]; [discriminate|].
  destruct (readLine parser) as [command p1] eqn:Hl1.
  destruct (String.eqb_spec command "statusResponse") as [->|]; [|discriminate].
  cbn [negb]. destruct (readLine p1) as [infoString p2] eqn:Hl2.
  destruct (bool_decide _) eqn:Hch; [|discriminate].
  apply bool_decide_eq_true in Hch. cbn [negb].
  destruct (clients_loop fuel p2 []) as [[cl p3]|]; [|discriminate].
  intros [= <-]. cbn [status_source status].
  split; [reflexivity|]. split; [exact Hsrc|]. split; [reflexivity|].
  split; [exact Hch|].
  exists parser. rewrite Hl1. cbn [fst snd]. rewrite Hl2. cbn [fst].
  repeat split; reflexivity.
Qed.

Lemma getstatus_strict_accepts_only_matching_witness :
  let res :=
    mkReply (mkAddress "10.0.0.1" 29070)
      (JKUtils.oobPrefix
       ++ Buffer.from_string ("statusResponse" ++ JS.LF ++ "\challenge\abc" ++ JS.LF)) in
  let r := mkStatus (mkAddress "10.0.0.1" 29070) (<["challenge" := "abc"]> ∅) [] in
  None = (None : option string)
  /\ source res = mkAddress "10.0.0.1" 29070
  /\ status_source r = source res
  /\ JS.obj_get (status r) "challenge" = Some "abc"
  /\ exists parser,
      Q3MessageParser.new (response res) true = inr parser
      /\ fst (readLine parser) = "statusResponse"
      /\ status r = JKUtils.parseInfostring (fst (readLine (snd (readLine parser)))).
Proof.
  intros res r.
  apply (getstatus_strict_accepts_only_matching 64 "10.0.0.1" 29070 "abc" None res r).
  vm_compute. reflexivity.
Defined.

(** X19.  In lenient mode no reply is turned down: whatever the source, the
    command and the challenge, none of the three handlers reports a failure
    for a reply that was received. *)
Theorem lenient_mode_reports_no_failure
    (fuel : nat) (ip : string) (port : Z) (challenge : string)
    (res : reply) (f : failure) :
  ctm_getservers_reply fuel false ip port None res <> Some (Failed f)
  /\ cts_getinfo_reply false ip port challenge None res <> Failed f
  /\ cts_getstatus_reply fuel false ip port challenge None res <> Some (Failed f).
Proof.
  unfold ctm_getservers_reply, cts_getinfo_reply, cts_getstatus_reply.
  rewrite !andb_false_r.
  destruct (Q3MessageParser.new (response res) true) as [e|parser];
    [repeat split; discriminate|].
  repeat split.
  - destruct (readChars parser _) as [command p1]. rewrite andb_false_r.
    destruct (skip_head fuel p1) as [[e|p2]|]; try discriminate.
    destruct (splitWithStride fuel p2 6 1 0) as [[chunks p3]|]; [|discriminate].
    destruct (decode_chunks chunks []); [discriminate|].
    destruct (readLine p3). discriminate.
  - destruct (readLine parser) as [command p1]. rewrite andb_false_r.
    destruct (readLine p1) as [infoString p2]. rewrite andb_false_r. discriminate.
  - destruct (readLine parser) as [command p1]. rewrite andb_false_r.
    destruct (readLine p1) as [infoString p2]. rewrite andb_false_r.
    destruct (clients_loop fuel p2 []) as [[cl p3]|]; discriminate.
Qed.

Lemma clients_loop_well_formed (fuel : nat) :
  forall (p : Q3MessageParser.t) (acc cl : list client) (p' : Q3MessageParser.t),
    Forall (fun c => exists line, client_shape line c) acc ->
    clients_loop fuel p acc = Some (cl, p') ->
    Forall (fun c => exists line, client_shape line c) cl.
Proof.
  induction fuel as [|fuel IH]; intros p acc cl p' Hacc; cbn [clients_loop];
    destruct (readLine p) as [line p1]; destruct line as [|ch line];
    intros Hrun; try discriminate; try (injection Hrun as <- _; exact Hacc).
  apply IH in Hrun; [exact Hrun|].
  destruct (exec_client (String ch line)) as [c|] eqn:Hc; [|exact Hacc].
  apply Forall_app. split; [exact Hacc|]. constructor; [|constructor].
  exists (String ch line). apply exec_client_shape. exact Hc.
Qed.

(** X20.  Every client record getstatus resolves with comes from a line of the
    client pattern: its score and ping are non-empty runs of digits and its
    name is non-empty and free of line terminators. *)
Theorem getstatus_clients_well_formed
    (fuel : nat) (strictMode : bool) (ip : string) (port : Z) (challenge : string)
    (err : option string) (res : reply) (r : status_result) :
  cts_getstatus_reply fuel strictMode ip port challenge err res = Some (Resolved r) ->
  Forall (fun c =>
            nonempty (score c) = true /\ JS.all_digits (score c) = true
            /\ nonempty (ping c) = true /\ JS.all_digits (ping c) = true
            /\ nonempty (name c) = true /\ all_dot (name c) = true)
         (clients r).
Proof.
  unfold cts_getstatus_reply. destruct err; [discriminate|].
  destruct (source_differs res ip port && strictMode); [discriminate|].
  destruct (Q3MessageParser.new (response res) true) as [e|parser]; [discriminate|].
  destruct (readLine parser) as [command p1].
  destruct (negb _ && strictMode); [discriminate|].
  destruct (readLine p1) as [infoString p2].
  destruct (negb _ && strictMode); [discriminate|].
  destruct (clients_loop fuel p2 []) as [[cl p3]|] eqn:Hloop; [|discriminate].
  intros [= <-]. cbn [clients].
  apply clients_loop_well_formed in Hloop; [|constructor].
  eapply Forall_impl; [exact Hloop|].
  intros c [line (_ & H)]. exact H.
Qed.

Lemma getstatus_clients_well_formed_witness :
  let r := mkStatus (mkAddress "10.0.0.1" 29070) (<["challenge" := "abc"]> ∅)
             [mkClient "12" "55" "Player One"] in
  Forall (fun c =>
            nonempty (score c) = true /\ JS.all_digits (score c) = true
            /\ nonempty (ping c) = true /\ JS.all_digits (ping c) = true
            /\ nonempty (name c) = true /\ all_dot (name c) = true)
         (clients r).
Proof.
  intros r.
  apply (getstatus_clients_well_formed 128 true "10.0.0.1" 29070 "abc" None
           (mkReply (mkAddress "10.0.0.1" 29070)
              (JKUtils.oobPrefix
               ++ Buffer.from_string
                    ("statusResponse" ++ JS.LF ++ "\challenge\abc" ++ JS.LF
                     ++ "12 55 " ++ JS.QUOTE ++ "Player One" ++ JS.QUOTE ++ JS.LF)))
           r).
  vm_compute. reflexivity.
Defined.

(** *** getservers *)

Lemma new_marked (payload : Buffer.t) :
  Q3MessageParser.new (JKUtils.oobPrefix ++ payload) true
  = inr (mk (JKUtils.oobPrefix ++ payload) 4).
Proof.
  unfold new. cbn [msg offset set_offset].
  rewrite (readUInt32LE_header JKUtils.oobPrefix payload eq_refl). reflexivity.
Qed.

Lemma new_inr (m : Buffer.t) (p : Q3MessageParser.t) :
  Q3MessageParser.new m true = inr p -> p = mk m 4.
Proof.
  unfold new. destruct (Buffer.readUInt32LE _ _); [|discriminate].
  destruct (negb _); [discriminate|]. intros [= <-]. reflexivity.
Qed.

Lemma readUInt8_in_range (b : Buffer.t) (o : Z) :
  0 <= o < Buffer.length b -> exists x, Buffer.readUInt8 b o = Some x.
Proof.
  intros Ho. unfold Buffer.readUInt8, Buffer.get, Buffer.length in *.
  destruct (Z.ltb_spec o 0); [lia|].
  destruct (Z.ltb_spec (Z.of_nat (length b) - 1) o); [lia|]. simpl.
  destruct (b !! Z.to_nat o) as [x|] eqn:Hx; [eexists; reflexivity|].
  apply lookup_ge_None in Hx. lia.
Qed.

Lemma readUInt8_at_end (b : Buffer.t) :
  Buffer.readUInt8 b (Buffer.length b) = None.
Proof.
  unfold Buffer.readUInt8.
  destruct (Z.ltb_spec (Buffer.length b - 1) (Buffer.length b)); [|lia].
  rewrite orb_true_r. reflexivity.
Qed.

Lemma decode_chunks_six (chunks : list Buffer.t) :
  Forall (fun chunk : Buffer.t => length chunk = 6%nat) chunks ->
  forall acc,
    exists servers,
      decode_chunks chunks acc = inr (acc ++ servers)
      /\ Forall2 (fun chunk s => JKUtils.decodeServer chunk = inr s) chunks servers
      /\ Forall (fun s => 0 <= JKUtils.port s <= 65535) servers.
Proof.
  induction 1 as [|chunk chunks Hlen _ IH]; intros acc.
  - exists []. rewrite app_nil_r. repeat split; constructor.
  - destruct chunk as [|a [|b [|c [|d [|hi [|lo [|x rest]]]]]]]; try discriminate.
    cbn [decode_chunks]. rewrite decodeServer_six.
    destruct (IH (acc ++ [JKUtils.mkServer (JKUtils.dotted a b c d)
                            (Buffer.u8 hi * 256 + Buffer.u8 lo)]))
      as (servers & Hrun & Hall & Hports).
    eexists (_ :: servers). rewrite Hrun, <- app_assoc.
    split; [reflexivity|]. split.
    + constructor; [apply decodeServer_six|exact Hall].
    + constructor; [|exact Hports].
      pose proof (u8_range hi). pose proof (u8_range lo). simpl. lia.
Qed.

(** X21.  The getservers handler hands [decodeServer] chunks of exactly six
    bytes only, so [decodeServer] never throws there.  Whenever the handler
    resolves, its servers are the decodings, one per chunk and in order, of
    the chunks [splitWithStride] cut from the reply after the command and
    one skipped byte; every chunk has six bytes and every port lies between
    0 and 65535.  Whenever it throws, the exception is the constructor's or
    that of the byte read after the skip, which is then out of range. *)
Theorem getservers_decodes_six_byte_chunks
    (fuel : nat) (strictMode : bool) (ip : string) (port : Z)
    (err : option string) (res : reply) (out : outcome (list JKUtils.server)) :
  ctm_getservers_reply fuel strictMode ip port err res = Some out ->
  let parser := snd (skip (mk (response res) 22) 1) in
  (forall servers, out = Resolved servers ->
     exists chunks parser',
       splitWithStride fuel parser 6 1 0 = Some (chunks, parser')
       /\ Forall (fun chunk : Buffer.t => length chunk = 6%nat) chunks
       /\ Forall2 (fun chunk s => JKUtils.decodeServer chunk = inr s) chunks servers
       /\ Forall (fun s => 0 <= JKUtils.port s <= 65535) servers)
  /\ (forall e, out = Threw e ->
        Q3MessageParser.new (response res) true = inl e
        \/ (e = RangeError
            /\ Buffer.readUInt8 (response res) (offset parser) = None)).
Proof.
  intros Hrun parser. revert Hrun. unfold ctm_getservers_reply.
  destruct err; [intros [= <-]; split; intros ? [=]|].
  destruct (source_differs res ip port && strictMode);
    [intros [= <-]; split; intros ? [=]|].
  destruct (Q3MessageParser.new (response res) true) as [e|parser0] eqn:Hnew.
  { intros [= <-]. split; [intros ? [=]|]. intros e' [= <-]. left. reflexivity. }
  apply new_inr in Hnew as ->.
  destruct (readChars _ _) as [command p1] eqn:Hrc.
  assert (p1 = mk (response res) 22) as ->
    by (unfold readChars in Hrc; injection Hrc as _ <-; reflexivity).
  destruct (negb _ && strictMode); [intros [= <-]; split; intros ? [=]|].
  destruct fuel as [|fuel']; [discriminate|].
  rewrite skip_head_once. fold parser.
  assert (msg parser = response res /\ 0 <= offset parser) as [Hmsg Ho].
  { unfold parser, skip. cbn [msg offset].
    destruct (_ <=? _); cbn [snd set_offset msg offset];
      (split; [reflexivity|]); [apply length_nonneg|lia]. }
  rewrite Hmsg.
  destruct (Buffer.readUInt8 (response res) (offset parser)) as [x|] eqn:Hread.
  2:{ intros [= <-]. split; [intros ? [=]|]. intros e' [= <-]. right. split; reflexivity. }
  destruct (splitWithStride (S fuel') parser 6 1 0) as [[chunks p3]|] eqn:Hsplit;
    [|discriminate].
  pose proof Hsplit as Hsizes.
  apply (splitWithStride_loop_sizes 6 1 0 ltac:(lia) ltac:(lia) (S fuel') [] parser
           chunks p3 Ho) in Hsizes as (Hsix & _ & _); [|constructor|by left].
  destruct (decode_chunks_six chunks Hsix []) as (decoded & Hdec & Hall & Hports).
  rewrite Hdec. destruct (readLine p3). intros [= <-]. split; [|intros ? [=]].
  intros servers [= <-]. exists chunks, p3.
  split; [reflexivity|]. split; [exact Hsix|]. split; [exact Hall|exact Hports].
Qed.

Lemma getservers_decodes_six_byte_chunks_witness :
  let res :=
    mkReply (mkAddress "192.0.2.1" 29060)
      (JKUtils.oobPrefix ++ Buffer.from_string "getserversResponse"
       ++ [x00]%byte
       ++ [x01; x02; x03; x04; x1f; x90; x5c]%byte
       ++ [x05; x06; x07; x08; x4e; x20; x5c]%byte
       ++ Buffer.from_string "EOT") in
  let out := Resolved [JKUtils.mkServer "1.2.3.4" 8080; JKUtils.mkServer "5.6.7.8" 20000] in
  let parser := snd (skip (mk (response res) 22) 1) in
  (forall servers, out = Resolved servers ->
     exists chunks parser',
       splitWithStride 64 parser 6 1 0 = Some (chunks, parser')
       /\ Forall (fun chunk : Buffer.t => length chunk = 6%nat) chunks
       /\ Forall2 (fun chunk s => JKUtils.decodeServer chunk = inr s) chunks servers
       /\ Forall (fun s => 0 <= JKUtils.port s <= 65535) servers)
  /\ (forall e, out = Threw e ->
        Q3MessageParser.new (response res) true = inl e
        \/ (e = RangeError
            /\ Buffer.readUInt8 (response res) (offset parser) = None)).
Proof.
  intros res out.
  apply (getservers_decodes_six_byte_chunks 64 true "192.0.2.1" 29060 None res out).
  vm_compute. reflexivity.
Defined.

(** X22.  A getservers reply that stops within one byte after the command (23
    bytes or fewer in all) never resolves: the handler reads the byte after
    the padding it has skipped, and that read is out of range. *)
Theorem getservers_truncated_reply_throws
    (fuel : nat) (strictMode : bool) (ip : string) (port : Z)
    (err : option string) (res : reply) :
  (length (response res) <= 23)%nat ->
  exists out,
    ctm_getservers_reply (S fuel) strictMode ip port err res = Some out
    /\ forall servers, out <> Resolved servers.
Proof.
  intros Hlen. unfold ctm_getservers_reply.
  destruct err; [eexists; split; [reflexivity|discriminate]|].
  destruct (source_differs res ip port && strictMode);
    [eexists; split; [reflexivity|discriminate]|].
  destruct (Q3MessageParser.new (response res) true) as [e|parser] eqn:Hnew;
    [eexists; split; [reflexivity|discriminate]|].
  apply new_inr in Hnew as ->.
  destruct (readChars _ _) as [command p1] eqn:Hrc.
  assert (p1 = mk (response res) 22) as ->
    by (unfold readChars in Hrc; injection Hrc as _ <-; reflexivity).
  destruct (negb _ && strictMode); [eexists; split; [reflexivity|discriminate]|].
  rewrite skip_head_once. unfold skip. cbn [msg offset].
  destruct (Z.leb_spec (Buffer.length (response res)) (22 + 1)) as [_|Hgt];
    [|unfold Buffer.length in Hgt; lia].
  cbn [snd set_offset msg offset]. rewrite readUInt8_at_end.
  eexists. split; [reflexivity|discriminate].
Qed.

Lemma getservers_truncated_reply_throws_witness :
  exists out,
    ctm_getservers_reply 1 true "192.0.2.1" 29060 None
      (mkReply (mkAddress "192.0.2.1" 29060)
         (JKUtils.oobPrefix ++ Buffer.from_string "getserversResponse" ++ [x5c]%byte))
    = Some out
    /\ forall servers, out <> Resolved servers.
Proof.
  apply (getservers_truncated_reply_throws 0 true "192.0.2.1" 29060 None
           (mkReply (mkAddress "192.0.2.1" 29060)
              (JKUtils.oobPrefix ++ Buffer.from_string "getserversResponse"
               ++ [x5c]%byte))).
  vm_compute. lia.
Defined.

(** X23.  The getservers handler always comes to an end: with a round of fuel
    per byte of the reply (and one at least) it returns an outcome, whatever
    the reply holds. *)
Theorem getservers_returns
    (fuel : nat) (strictMode : bool) (ip : string) (port : Z)
    (err : option string) (res : reply) :
  (length (response res) < fuel)%nat ->
  exists out, ctm_getservers_reply fuel strictMode ip port err res = Some out.
Proof.
  intros Hfuel. unfold ctm_getservers_reply.
  destruct err; [eexists; reflexivity|].
  destruct (source_differs res ip port && strictMode); [eexists; reflexivity|].
  destruct (Q3MessageParser.new (response res) true) as [e|parser] eqn:Hnew;
    [eexists; reflexivity|].
  apply new_inr in Hnew as ->.
  destruct (readChars _ _) as [command p1] eqn:Hrc.
  assert (p1 = mk (response res) 22) as ->
    by (unfold readChars in Hrc; injection Hrc as _ <-; reflexivity).
  destruct (negb _ && strictMode); [eexists; reflexivity|].
  destruct fuel as [|fuel']; [lia|].
  rewrite skip_head_once.
  destruct (Buffer.readUInt8 _ _); [|eexists; reflexivity].
  assert (exists o, snd (skip (mk (response res) 22) 1) = mk (response res) o /\ 0 <= o)
    as (o & -> & Ho).
  { unfold skip. cbn [msg offset]. destruct (_ <=? _); cbn [snd set_offset msg offset];
      eexists; (split; [reflexivity|]); [apply length_nonneg|lia]. }
  destruct (splitWithStride_loop_runs (response res) 6 1 0
              ltac:(lia) ltac:(lia) ltac:(lia) ltac:(lia)
              (length (response res)) [] o Ho) as (K & Hrun & _).
  - by left.
  - simpl. unfold Buffer.length. lia.
  - unfold splitWithStride. rewrite Hrun by lia.
    destruct (decode_chunks _ _); [eexists; reflexivity|].
    destruct (readLine _). eexists; reflexivity.
Qed.

Lemma getservers_returns_witness :
  exists out,
    ctm_getservers_reply 8 false "192.0.2.1" 29060 None
      (mkReply (mkAddress "192.0.2.9" 1) [xff; xff; xff; xff; x41]%byte)
    = Some out.
Proof.
  apply (getservers_returns 8 false "192.0.2.1" 29060 None
           (mkReply (mkAddress "192.0.2.9" 1) [xff; xff; xff; xff; x41]%byte)).
  simpl. lia.
Defined.

Lemma splitWithStride_records (trailer : Buffer.t) :
  (length trailer <= 6)%nat ->
  forall (records : list Buffer.t) (pre : Buffer.t) (acc : list Buffer.t) (fuel : nat),
    Forall (fun record : Buffer.t => length record = 6%nat) records ->
    (length records <= fuel)%nat ->
    splitWithStride_loop fuel 6 1 0 acc
      (mk (pre ++ (records_body records ++ trailer)) (Z.of_nat (length pre)))
    = Some (acc ++ records,
            mk (pre ++ (records_body records ++ trailer))
               (Z.of_nat (length pre) + 7 * Z.of_nat (length records))).
Proof.
  intros Htrailer records.
  induction records as [|record records IH]; intros pre acc fuel Hsix Hfuel.
  - rewrite app_nil_r. cbn [length records_body map concat app].
    rewrite Z.mul_0_r, Z.add_0_r.
    apply splitWithStride_loop_stop. cbn [msg offset].
    apply andb_false_iff. left. apply Z.ltb_ge.
    unfold Buffer.length. rewrite length_app. lia.
  - inversion Hsix as [|? ? Hlen Hrest]; subst.
    destruct fuel as [|fuel]; [simpl in Hfuel; lia|].
    change (records_body (record :: records))
      with ((record ++ [x5c]%byte) ++ records_body records).
    rewrite splitWithStride_loop_step.
    + cbn [msg offset]. unfold set_offset. cbn [msg offset].
      rewrite slice_in_range by lia.
      replace (Z.to_nat (Z.of_nat (length pre) + 6 - Z.of_nat (length pre)))
        with (length record) by lia.
      rewrite Nat2Z.id, drop_app_length.
      rewrite <- !app_assoc. rewrite take_app_length.
      replace (pre ++ record ++ [x5c]%byte ++ records_body records ++ trailer)
        with ((pre ++ record ++ [x5c]%byte) ++ (records_body records ++ trailer))
        by (rewrite <- !app_assoc; reflexivity).
      replace (Z.of_nat (length pre) + 6 + 1)
        with (Z.of_nat (length (pre ++ record ++ [x5c]%byte)))
        by (rewrite !length_app; simpl; lia).
      rewrite IH by (try exact Hrest; simpl in Hfuel; lia).
      rewrite <- app_assoc. f_equal. f_equal. f_equal.
      rewrite !length_app. simpl. lia.
    + cbn [msg offset]. apply andb_true_iff. split; [|reflexivity].
      apply Z.ltb_lt. unfold Buffer.length. rewrite !length_app. simpl. lia.
Qed.

(** X24.  getservers on a well-formed datagram: with one byte of padding after
    the command, records of six bytes each followed by a separator, and a
    trailer of one to six bytes, the handler resolves with exactly the
    records decoded, one server per record and in order, in strict and in
    lenient mode. *)
Theorem getservers_decodes_each_record
    (fuel : nat) (strictMode : bool) (ip : string) (port : Z)
    (pad : byte) (records : list Buffer.t) (trailer : Buffer.t) :
  Forall (fun record : Buffer.t => length record = 6%nat) records ->
  (1 <= length trailer <= 6)%nat ->
  (length records < fuel)%nat ->
  exists servers,
    ctm_getservers_reply fuel strictMode ip port None
      (mkReply (mkAddress ip port) (getservers_datagram pad records trailer))
    = Some (Resolved servers)
    /\ Forall2 (fun record s => JKUtils.decodeServer record = inr s) records servers.
Proof.
  intros Hsix Htrailer Hfuel.
  destruct (decode_chunks_six records Hsix []) as (servers & Hdecode & Hall & _).
  exists servers. split; [|exact Hall].
  unfold ctm_getservers_reply.
  assert (source_differs
            (mkReply (mkAddress ip port) (getservers_datagram pad records trailer))
            ip port = false) as -> by (apply source_matches; reflexivity).
  cbn [andb response]. unfold getservers_datagram. rewrite new_marked.
  set (tail := [pad] ++ (records_body records ++ trailer)).
  set (command := Buffer.from_string "getserversResponse").
  set (payload := JKUtils.oobPrefix ++ (command ++ tail)).
  rewrite readChars_eq by (unfold str_length; cbn [offset]; lia). cbn [msg offset].
  assert (Buffer.bytes_at payload 4 (str_length "getserversResponse") = command) as ->.
  { unfold Buffer.bytes_at, payload.
    change (Z.to_nat 4) with (length JKUtils.oobPrefix).
    change (Z.to_nat (str_length "getserversResponse")) with (length command).
    rewrite drop_app_length, take_app_length. reflexivity. }
  change (Buffer.ascii_text command) with "getserversResponse".
  change (negb ("getserversResponse" =? "getserversResponse")%string) with false.
  cbn [andb]. unfold set_offset. cbn [msg offset].
  change (4 + str_length "getserversResponse") with 22.
  destruct fuel as [|fuel']; [lia|].
  assert (Buffer.length payload
          = 23 + 7 * Z.of_nat (length records) + Z.of_nat (length trailer)) as Hlen.
  { unfold payload, tail, Buffer.length. rewrite !length_app.
    assert (length (records_body records) = (7 * length records)%nat) as ->.
    { clear -Hsix. induction Hsix as [|record records Hr _ IH]; [reflexivity|].
      unfold records_body in *. cbn [map concat]. rewrite !length_app, IH, Hr.
      simpl. lia. }
    change (length JKUtils.oobPrefix) with 4%nat.
    change (length command) with 18%nat. simpl. lia. }
  rewrite skip_head_once. unfold skip. cbn [msg offset].
  destruct (Z.leb_spec (Buffer.length payload) (22 + 1)); [lia|].
  cbn [snd set_offset msg offset].
  destruct (readUInt8_in_range payload (22 + 1) ltac:(lia)) as [x ->].
  unfold splitWithStride, set_offset. cbn [msg offset].
  replace payload
    with ((JKUtils.oobPrefix ++ command ++ [pad]) ++ (records_body records ++ trailer))
    by (unfold payload, tail; rewrite <- !app_assoc; reflexivity).
  change (22 + 1) with (Z.of_nat (length (JKUtils.oobPrefix ++ command ++ [pad]))).
  rewrite (splitWithStride_records trailer) by (try exact Hsix; lia).
  cbn [app]. rewrite Hdecode. cbn [app].
  destruct (readLine _). reflexivity.
Qed.

Lemma getservers_decodes_each_record_witness :
  exists servers,
    ctm_getservers_reply 8 true "192.0.2.1" 29060 None
      (mkReply (mkAddress "192.0.2.1" 29060)
         (getservers_datagram x5c
            [[x01; x02; x03; x04; x1f; x90]; [x05; x06; x07; x08; x4e; x20]]%byte
            (Buffer.from_string "EOT")))
    = Some (Resolved servers)
    /\ Forall2 (fun record s => JKUtils.decodeServer record = inr s)
         [[x01; x02; x03; x04; x1f; x90]; [x05; x06; x07; x08; x4e; x20]]%byte
         servers.
Proof.
  apply (getservers_decodes_each_record 8 true "192.0.2.1" 29060 x5c
           [[x01; x02; x03; x04; x1f; x90]; [x05; x06; x07; x08; x4e; x20]]%byte
           (Buffer.from_string "EOT")).
  - repeat constructor.
  - vm_compute. lia.
  - simpl. lia.
Defined.

End CommsMoreFacts.
